(** * Job lifecycle core of [main.py]: Job, WebAgent, JobManager

    A shallow embedding of the background-job orchestrator: the [Job]
    dataclass, the step loop of [WebAgent.run_steps], the lifecycle
    coroutine [JobManager._run_job] and the registry operations of
    [JobManager], together with the part of the asyncio task protocol the
    code relies on (a task created by [asyncio.create_task] runs in slices
    between its suspension points, and [Task.cancel] makes the next slice
    start by throwing [CancelledError] at the point where the coroutine
    waits). *)

From Stdlib Require Import Ascii.
From stdpp Require Import base option list strings pretty.

Open Scope string_scope.
Open Scope list_scope.
Open Scope nat_scope.

(** ** Exceptions and the external collaborators *)

(** What can be raised, by the classes the handlers on lines 128, 162 and
    165 tell apart.  [Exception msg] is any instance of [Exception] with
    [str(e) = msg]; [CancelledError] is [asyncio.CancelledError], which
    derives from [BaseException] and is therefore not matched by
    [except Exception]; [BaseException msg] is an instance of any other
    class, one that derives from [BaseException] but neither from
    [Exception] nor from [CancelledError] ([GeneratorExit], [SystemExit],
    [KeyboardInterrupt], a class of the collaborators' own), which none of
    the three handlers matches.  For [SystemExit] and [KeyboardInterrupt]
    the event loop stops as well once the task has recorded the exception;
    what is said here of the task and its Job holds up to that point. *)
Inductive exn : Type :=
  | Exception (msg : string)
  | CancelledError
  | BaseException (msg : string).

Inductive outcome : Type :=
  | Return (response : string)
  | Raise (e : exn).

(** What [await self.runner.run_debug(step, verbose=False)] does.  The call
    either completes without handing control back to the event loop, or it
    suspends the task; a suspended call is later woken up with its normal
    result, or, when the task was cancelled in the meantime, with whatever
    the call makes of the [CancelledError] thrown into it. *)
Inductive awaited : Type :=
  | Immediate (o : outcome)
  | Suspends (on_resume on_cancel : outcome).

(** The behaviour of everything one WebAgent talks to: the wall clock read
    by [WebAgent.log], the constructors called by [WebAgent.setup]
    (lines 84-112) and the ADK runner. *)
Record Executor : Type := mkExecutor {
  (** [datetime.now().strftime("%H:%M:%S")] as read for the n-th log line *)
  clock : nat → string;
  (** [None] when lines 84-112 run through, [Some e] when one of them raises *)
  setup_tools : option exn;
  (** the i-th call of [run_debug], made for the given step text *)
  run_debug : nat → string → awaited;
}.

(** ** Effects of the coroutine on its Job *)

Inductive action : Type :=
  | SetStatus (s : string)            (* job.status = s *)
  | AgentLog (message : string)       (* WebAgent.log(message) *)
  | JobLog (msg : string)             (* job_logger(msg) called by _run_job *)
  | Await (i : nat) (step : string).  (* run_debug(step) is entered *)

(** Where a computation inside the [try] block of [_run_job] stands when it
    stops producing actions. *)
Inductive flow : Type :=
  | Finished (raised : option exn)
  | Suspended (i : nat) (step : string) (rest : list string)
              (on_resume on_cancel : outcome).

(** The coroutine object of [_run_job(job, steps)]: not started yet,
    waiting in a step, returned, closed by a cancellation before its body
    was entered, or left by an exception no handler matched. *)
Inductive Coro : Type :=
  | Created (steps : list string)
  | InStep (i : nat) (step : string) (rest : list string)
           (on_resume on_cancel : outcome)
  | Returned
  | Cancelled
  | Raised (e : exn).

(** ** WebAgent *)

(** [WebAgent.setup] *)
Definition setup (ex : Executor) : list action * option exn :=
  match setup_tools ex with
  | Some e => ([AgentLog "Initializing Agent & Tools..."], Some e)
  | None => ([AgentLog "Initializing Agent & Tools...";
              AgentLog "Agent Setup Complete."], None)
  end.

(** Lines 127-130: what the loop body does once [run_debug] has an outcome;
    [k] is the rest of the loop and of [run_steps]. *)
Definition settle (i : nat) (o : outcome) (k : list action * flow)
  : list action * flow :=
  match o with
  | Return response => (AgentLog ("Result: " +:+ response) :: k.1, k.2)
  | Raise (Exception msg) =>
      ([AgentLog ("❌ Error on step " +:+ pretty i +:+ ": " +:+ msg)],
       Finished (Some (Exception msg)))
  | Raise CancelledError => ([], Finished (Some CancelledError))
  | Raise (BaseException msg) => ([], Finished (Some (BaseException msg)))
  end.

(** Lines 121-132: the loop of [run_steps] from 1-based index [i] on, and
    the final log line. *)
Fixpoint steps_from (ex : Executor) (i : nat) (steps : list string)
  : list action * flow :=
  match steps with
  | [] => ([AgentLog "✅ Workflow completed successfully."], Finished None)
  | step :: rest =>
      let r :=
        match run_debug ex i step with
        | Immediate o => settle i o (steps_from ex (S i) rest)
        | Suspends o c => ([], Suspended i step rest o c)
        end in
      (AgentLog ("Step " +:+ pretty i +:+ ": " +:+ step) :: Await i step :: r.1,
       r.2)
  end.

(** [WebAgent.run_steps]; [agent_set] is the truth value of [self.agent]. *)
Definition run_steps (ex : Executor) (agent_set : bool) (steps : list string)
  : list action * flow :=
  let s := if agent_set then ([], None) else setup ex in
  match s.2 with
  | Some e => (s.1, Finished (Some e))
  | None =>
      let r := steps_from ex 1 steps in
      (s.1 ++
       AgentLog ("Starting execution of " +:+ pretty (length steps) +:+ " steps.")
       :: r.1, r.2)
  end.

(** ** JobManager._run_job *)

(** The [except] clauses of lines 162-167; neither matches an exception of
    another class. *)
Definition handler (e : exn) : list action :=
  match e with
  | CancelledError =>
      [SetStatus "CANCELLED"; JobLog "⚠️ Job was cancelled by user."]
  | Exception msg =>
      [SetStatus "FAILED"; JobLog ("💥 Critical Failure: " +:+ msg)]
  | BaseException _ => []
  end.

(** Leaving the [try] block: line 161 on normal completion, a handler on an
    exception it matches, after which the coroutine returns; an exception
    no handler matches leaves the coroutine; a suspended computation leaves
    the coroutine waiting. *)
Definition leave_try (r : list action * flow) : list action * Coro :=
  match r.2 with
  | Finished None => (r.1 ++ [SetStatus "COMPLETED"], Returned)
  | Finished (Some e) =>
      (r.1 ++ handler e,
       match e with
       | BaseException _ => Raised e
       | Exception _ | CancelledError => Returned
       end)
  | Suspended i step rest o c => (r.1, InStep i step rest o c)
  end.

(** Lines 159-160: [await agent.setup()], then [await agent.run_steps(steps)]
    with [self.agent] set by the setup that went through. *)
Definition try_block (ex : Executor) (steps : list string)
  : list action * flow :=
  let s := setup ex in
  match s.2 with
  | Some e => (s.1, Finished (Some e))
  | None => let t := run_steps ex true steps in (s.1 ++ t.1, t.2)
  end.

(** The body of [_run_job] from its first line to its first suspension. *)
Definition _run_job (ex : Executor) (steps : list string)
  : list action * Coro :=
  let l := leave_try (try_block ex steps) in
  (SetStatus "RUNNING" :: l.1, l.2).

(** The coroutine woken up inside step [i] with outcome [o]. *)
Definition resume (ex : Executor) (i : nat) (rest : list string) (o : outcome)
  : list action * Coro :=
  leave_try (settle i o (steps_from ex (S i) rest)).

(** One slice of the task ([Task.__step]): a pending cancellation is thrown
    into the coroutine, which for a coroutine whose body was never entered
    ends it on the spot. *)
Definition task_step (ex : Executor) (must_cancel : bool) (c : Coro)
  : list action * Coro :=
  match c with
  | Created steps => if must_cancel then ([], Cancelled) else _run_job ex steps
  | InStep i step rest o c' => resume ex i rest (if must_cancel then c' else o)
  | Returned => ([], Returned)
  | Cancelled => ([], Cancelled)
  | Raised e => ([], Raised e)
  end.

(** ** Job and its asyncio task *)

(** The [asyncio.Task] wrapping one [_run_job] coroutine, with the
    collaborators its WebAgent will meet. *)
Record Task : Type := mkTask {
  coro : Coro;
  must_cancel : bool;
  world : Executor;
}.

(** [Task.done()] *)
Definition done (t : Task) : bool :=
  match coro t with
  | Returned | Cancelled | Raised _ => true
  | Created _ | InStep _ _ _ _ _ => false
  end.

(** [Task.cancel()]: refused on a finished task, otherwise the request is
    recorded for the next slice. *)
Definition cancel (t : Task) : bool * Task :=
  if done t then (false, t) else (true, mkTask (coro t) true (world t)).

(** The [Job] dataclass. *)
Record Job : Type := mkJob {
  id : string;
  name : string;
  status : string;
  logs : list string;
  task : option Task;
  created_at : string;
}.

Definition set_status (s : string) (j : Job) : Job :=
  mkJob (id j) (name j) s (logs j) (task j) (created_at j).

Definition append_log (msg : string) (j : Job) : Job :=
  mkJob (id j) (name j) (status j) (logs j ++ [msg]) (task j) (created_at j).

Definition set_task (t : option Task) (j : Job) : Job :=
  mkJob (id j) (name j) (status j) (logs j) t (created_at j).

(** [WebAgent.log]: the message behind a bracketed timestamp. *)
Definition formatted_msg (timestamp message : string) : string :=
  "[" +:+ timestamp +:+ "] " +:+ message.

(** One effect of the coroutine carried out on its Job.  The only callers
    of the clock are the calls of [WebAgent.log], each of which appends one
    line, so the line being appended is number [length (logs j)]. *)
Definition perform (ex : Executor) (j : Job) (a : action) : Job :=
  match a with
  | SetStatus s => set_status s j
  | AgentLog message =>
      append_log (formatted_msg (clock ex (length (logs j))) message) j
  | JobLog msg => append_log msg j
  | Await _ _ => j
  end.

Definition perform_all (ex : Executor) (j : Job) (acts : list action) : Job :=
  foldl (perform ex) j acts.

Definition terminal (s : string) : bool :=
  bool_decide (s = "COMPLETED") || bool_decide (s = "FAILED")
  || bool_decide (s = "CANCELLED").

(** ** JobManager *)

(** A Python [dict] with string keys: insertion-ordered, and an assignment
    to a key already present replaces the value where it stands. *)
Fixpoint dict_get {V} (k : string) (d : list (string * V)) : option V :=
  match d with
  | [] => None
  | (k', v) :: d' => if decide (k' = k) then Some v else dict_get k d'
  end.

Fixpoint dict_set {V} (k : string) (v : V) (d : list (string * V))
  : list (string * V) :=
  match d with
  | [] => [(k, v)]
  | (k', v') :: d' =>
      if decide (k' = k) then (k', v) :: d' else (k', v') :: dict_set k v d'
  end.

(** The JobManager with the Job objects it has allocated: [objects] holds
    every Job ever constructed, by address, and [jobs] is the dictionary
    [self.jobs] from id to the address of a Job. *)
Record JobManager : Type := mkJobManager {
  objects : list Job;
  jobs : list (string * nat);
}.

(** [JobManager.__init__] *)
Definition new_manager : JobManager := mkJobManager [] [].

(** [JobManager.create_job]; [uuid4] is the text of the UUID drawn on line
    140 and [now] the time read by the [created_at] default. *)
Definition create_job (uuid4 now : string) (ex : Executor)
    (name : string) (steps : list string) (m : JobManager)
  : string * JobManager :=
  let job_id := Strings.String.substring 0 8 uuid4 in
  let job := mkJob job_id name "PENDING" [] None now in
  let a := length (objects m) in
  let task := mkTask (Created steps) false ex in
  (job_id,
   mkJobManager (objects m ++ [set_task (Some task) job])
                (dict_set job_id a (jobs m))).

(** [JobManager.get_job] *)
Definition get_job (job_id : string) (m : JobManager) : option Job :=
  a ← dict_get job_id (jobs m); objects m !! a.

(** [JobManager.list_jobs] *)
Definition list_jobs (m : JobManager) : list Job :=
  omap (λ kv, objects m !! kv.2) (jobs m).

(** [JobManager.cancel_job] *)
Definition cancel_job (job_id : string) (m : JobManager)
  : bool * JobManager :=
  match dict_get job_id (jobs m) with
  | Some a =>
      match objects m !! a with
      | Some job =>
          match task job with
          | Some t =>
              if done t then (false, m)
              else (true,
                    mkJobManager
                      (<[a := set_task (Some (cancel t).2) job]> (objects m))
                      (jobs m))
          | None => (false, m)
          end
      | None => (false, m)
      end
  | None => (false, m)
  end.

(** ** The event loop *)

(** The next slice of the task of [job]: the coroutine runs up to its next
    suspension point or to its end, and its effects land on [job].  A task
    that is done is never scheduled again. *)
Definition step_job (job : Job) : list action * Job :=
  match task job with
  | Some t =>
      if done t then ([], job)
      else
        let r := task_step (world t) (must_cancel t) (coro t) in
        (r.1,
         set_task (Some (mkTask r.2 false (world t)))
                  (perform_all (world t) job r.1))
  | None => ([], job)
  end.

(** The event loop gives the task of the Job at address [a] its slice. *)
Definition run_task (a : nat) (m : JobManager) : list action * JobManager :=
  match objects m !! a with
  | Some job =>
      let r := step_job job in
      (r.1, mkJobManager (<[a := r.2]> (objects m)) (jobs m))
  | None => ([], m)
  end.

(** What can happen next in a process that owns one JobManager: a call of
    one of its methods, or the event loop resuming one of the tasks. *)
Inductive event : Type :=
  | CreateJob (uuid4 now : string) (ex : Executor)
              (name : string) (steps : list string)
  | GetJob (job_id : string)
  | ListJobs
  | CancelJob (job_id : string)
  | RunTask (a : nat).

Definition step (m : JobManager) (e : event) : JobManager :=
  match e with
  | CreateJob uuid4 now ex name steps =>
      (create_job uuid4 now ex name steps m).2
  | GetJob _ => m
  | ListJobs => m
  | CancelJob job_id => (cancel_job job_id m).2
  | RunTask a => (run_task a m).2
  end.

Definition run (evs : list event) (m : JobManager) : JobManager :=
  foldl step m evs.

(** The writes the event makes to Job objects, each with the address of
    the Job written. *)
Definition effects (m : JobManager) (e : event) : list (nat * action) :=
  match e with
  | RunTask a => (λ x, (a, x)) <$> (run_task a m).1
  | _ => []
  end.

Fixpoint history (evs : list event) (m : JobManager) : list (nat * action) :=
  match evs with
  | [] => []
  | e :: evs' => effects m e ++ history evs' (step m e)
  end.

(** ** Reading traces *)

Definition status_of (x : action) : option string :=
  match x with SetStatus s => Some s | _ => None end.

(** The values assigned to [status] by a run of actions, in order. *)
Definition writes (acts : list action) : list string := omap status_of acts.

(** The lines a run of actions appends to a log that holds [n] lines. *)
Fixpoint render (ex : Executor) (n : nat) (acts : list action) : list string :=
  match acts with
  | [] => []
  | AgentLog message :: acts' =>
      formatted_msg (clock ex n) message :: render ex (S n) acts'
  | JobLog msg :: acts' => msg :: render ex (S n) acts'
  | _ :: acts' => render ex n acts'
  end.

(** The actions of a history that land on the Job at [a]. *)
Definition actions_at (a : nat) (h : list (nat * action)) : list action :=
  snd <$> filter (λ x, x.1 = a) h.

Definition status_writes (a : nat) (h : list (nat * action)) : list string :=
  writes (actions_at a h).

(** The state machine of the status field. *)
Definition edge (s s' : string) : bool :=
  (bool_decide (s = "PENDING") && bool_decide (s' = "RUNNING"))
  || (bool_decide (s = "RUNNING") && terminal s').

Fixpoint follows_edges (h : list string) : bool :=
  match h with
  | s :: ((s' :: _) as h') => edge s s' && follows_edges h'
  | _ => true
  end.

(** The actions of [WebAgent]: log lines and calls of the runner. *)
Definition plain (x : action) : Prop :=
  match x with
  | AgentLog _ | Await _ _ => True
  | SetStatus _ | JobLog _ => False
  end.

(** What a slice that entered the body of the coroutine can end with: it
    is suspended in a step, or line 161 or one of the handlers has run and
    the coroutine has returned, or an exception of a class no handler
    matches has left the coroutine. *)
Definition closing (tail : list action) (c : Coro) : Prop :=
  match c with
  | InStep _ _ _ _ _ => tail = []
  | Returned =>
      tail = [SetStatus "COMPLETED"] ∨ tail = handler CancelledError
      ∨ ∃ msg, tail = handler (Exception msg)
  | Raised e => tail = [] ∧ ∃ msg, e = BaseException msg
  | Created _ | Cancelled => False
  end.

(** How the state of the coroutine and the actions it has performed so far
    go together. *)
Definition phase_ok (c : Coro) (acts : list action) : Prop :=
  match c with
  | Created _ | Cancelled => acts = []
  | InStep _ _ _ _ _ =>
      ∃ p, acts = SetStatus "RUNNING" :: p ∧ Forall plain p
  | Returned =>
      ∃ p tail, acts = SetStatus "RUNNING" :: p ++ tail ∧ Forall plain p
                ∧ closing tail Returned
  | Raised e =>
      (∃ p, acts = SetStatus "RUNNING" :: p ∧ Forall plain p)
      ∧ ∃ msg, e = BaseException msg
  end.

(** Every Job object has its task; its status and log are what the actions
    of the history make of a new Job; and the coroutine is where these
    actions leave it. *)
Definition hist_ok (m : JobManager) (h : list (nat * action)) : Prop :=
  ∀ a, match objects m !! a with
       | Some j =>
           ∃ t, task j = Some t
                ∧ status j = default "PENDING" (last (status_writes a h))
                ∧ logs j = render (world t) 0 (actions_at a h)
                ∧ phase_ok (coro t) (actions_at a h)
       | None => actions_at a h = []
       end.

(** ** Runs nobody cancels *)

(** [n] slices of a task while no cancellation is requested. *)
Fixpoint uncancelled (ex : Executor) (n : nat) (c : Coro)
  : list action * Coro :=
  match n with
  | 0 => ([], c)
  | S n' =>
      let r := task_step ex false c in
      let r' := uncancelled ex n' r.2 in
      (r.1 ++ r'.1, r'.2)
  end.

(** The outcome of an awaited call that is left to complete. *)
Definition unsuspend (w : awaited) : outcome :=
  match w with
  | Immediate o => o
  | Suspends o _ => o
  end.

(** The same collaborators, with calls that never hand control back. *)
Definition synchronous (ex : Executor) : Executor :=
  mkExecutor (clock ex) (setup_tools ex)
             (λ i step, Immediate (unsuspend (run_debug ex i step))).

(** The calls of [run_debug] for [steps], numbered from [i], return the
    responses [rs]. *)
Fixpoint responds (ex : Executor) (i : nat) (steps rs : list string) : Prop :=
  match steps, rs with
  | [], [] => True
  | step :: steps', r :: rs' =>
      unsuspend (run_debug ex i step) = Return r ∧ responds ex (S i) steps' rs'
  | _, _ => False
  end.

(** The messages [WebAgent.log] is given for steps that return. *)
Fixpoint step_lines (i : nat) (steps rs : list string) : list string :=
  match steps, rs with
  | step :: steps', r :: rs' =>
      ("Step " +:+ pretty i +:+ ": " +:+ step) :: ("Result: " +:+ r)
      :: step_lines (S i) steps' rs'
  | _, _ => []
  end.

(** Messages logged by [WebAgent.log] as lines [n], [n+1], ... *)
Fixpoint stamped (ex : Executor) (n : nat) (msgs : list string) : list string :=
  match msgs with
  | [] => []
  | message :: msgs' =>
      formatted_msg (clock ex n) message :: stamped ex (S n) msgs'
  end.

(** The lines [WebAgent.setup] and the head of [run_steps] log. *)
Definition opening (steps : list string) : list string :=
  ["Initializing Agent & Tools..."; "Agent Setup Complete.";
   "Starting execution of " +:+ pretty (length steps) +:+ " steps."].

(** The calls of [run_debug] a run of actions enters. *)
Definition awaits (acts : list action) : list (nat * string) :=
  omap (λ x, match x with Await i step => Some (i, step) | _ => None end) acts.

Definition is_run (a : nat) (e : event) : bool :=
  match e with RunTask b => bool_decide (b = a) | _ => false end.

(** The number of slices the event loop gives the task of the Job at [a]. *)
Definition slices (a : nat) (evs : list event) : nat :=
  length (filter (λ e, is_run a e = true) evs).

Definition is_cancel (job_id : string) (e : event) : bool :=
  match e with CancelJob k => bool_decide (k = job_id) | _ => false end.

(** The actions of the loop of [run_steps] for steps that return. *)
Fixpoint step_actions (i : nat) (steps rs : list string) : list action :=
  match steps, rs with
  | step :: steps', r :: rs' =>
      AgentLog ("Step " +:+ pretty i +:+ ": " +:+ step) :: Await i step
      :: AgentLog ("Result: " +:+ r) :: step_actions (S i) steps' rs'
  | _, _ => []
  end.

(** The messages given to [WebAgent.log] in a run of actions. *)
Definition agent_msgs (acts : list action) : list string :=
  omap (λ x, match x with AgentLog message => Some message | _ => None end)
       acts.

(** Every id in the dictionary leads to a Job object carrying that id. *)
Definition reg_ok (m : JobManager) : Prop :=
  ∀ k b, dict_get k (jobs m) = Some b →
         ∃ j, objects m !! b = Some j ∧ id j = k.



(** A Job whose task was cancelled before its first slice: the request is
    pending, or the task has ended without entering [_run_job]; [ran]
    tells which. *)
Definition stuck (ran : bool) (j : Job) : Prop :=
  status j = "PENDING" ∧ logs j = []
  ∧ ∃ t, task j = Some t
         ∧ if ran then coro t = Cancelled
           else ∃ steps, coro t = Created steps ∧ must_cancel t = true.

(** The ids drawn by the calls of [create_job] among the events. *)
Definition drawn (evs : list event) : list string :=
  omap (λ e, match e with
             | CreateJob uuid4 _ _ _ _ =>
                 Some (Strings.String.substring 0 8 uuid4)
             | _ => None
             end) evs.

(** ** Composing slices *)

(** Actions performed before a computation. *)
Definition prepend {A} (p : list action) (r : list action * A)
  : list action * A :=
  (p ++ r.1, r.2).

(** [n] further slices after the slice that produced [l]. *)
Definition extend (ex : Executor) (n : nat) (l : list action * Coro)
  : list action * Coro :=
  (l.1 ++ (uncancelled ex n l.2).1, (uncancelled ex n l.2).2).

(** ** Telling the lines of the log apart *)


(** ** Scenarios *)

(** An executor whose calls all suspend and then return "done". *)
Definition obliging : Executor :=
  mkExecutor (λ _, "12:00:00") None
             (λ _ _, Suspends (Return "done") (Raise CancelledError)).

(** An executor whose second call suspends and then fails with "timeout". *)
Definition flaky : Executor :=
  mkExecutor (λ _, "12:00:00") None
    (λ i _, if decide (i = 2)
            then Suspends (Raise (Exception "timeout")) (Raise CancelledError)
            else Suspends (Return "done") (Raise CancelledError)).

(** An executor whose setup fails. *)
Definition broken : Executor :=
  mkExecutor (λ _, "12:00:00") (Some (Exception "npx not found"))
             (λ _ _, Suspends (Return "done") (Raise CancelledError)).


(** ** Cancelling inside a step *)

(** A Job whose cancellation was requested while its task waited in a call
    of [run_debug] that lets the [CancelledError] through: the request is
    pending, or the handler of lines 162-164 has run; [ran] tells which.
    [j0] is the Job as it was when [cancel_job] was called. *)
Definition cancelling (ran : bool) (j0 j : Job) : Prop :=
  ∃ t, task j = Some t
       ∧ if ran
         then coro t = Returned ∧ status j = "CANCELLED"
              ∧ logs j = logs j0 ++ ["⚠️ Job was cancelled by user."]
         else (∃ i step rest o,
                 coro t = InStep i step rest o (Raise CancelledError))
              ∧ must_cancel t = true
              ∧ status j = status j0 ∧ logs j = logs j0.

(** ** WorkflowManager *)

Record WorkflowManager : Type := mkWorkflowManager {
  workflows : list (string * list string);
}.

(** [WorkflowManager.__init__] *)
Definition new_workflow_manager : WorkflowManager :=
  mkWorkflowManager
    [("demo_insurance",
      ["navigate to 'https://www.royalsundaram.in/MOPIS/Login.jsp'";
       "Enter username 'invictus' and password 'Secret123', click sign in";
       "Click 'Rating Calculator' -> 'New Business' -> 'Private Car'";
       "Enter vehicle MH 02 FR 1294 and click get started";
       "download the generated pdf"]);
     ("google_check",
      ["navigate to google.com";
       "search for 'Google ADK python'";
       "summarize the first result"])].

(** [WorkflowManager.get_workflow] *)
Definition get_workflow (name : string) (w : WorkflowManager) : list string :=
  default [] (dict_get name (workflows w)).

(** [WorkflowManager.add_workflow] *)
Definition add_workflow (name : string) (steps : list string)
    (w : WorkflowManager) : WorkflowManager :=
  mkWorkflowManager (dict_set name steps (workflows w)).

(** [WorkflowManager.list_workflows] *)
Definition list_workflows (w : WorkflowManager) : list string :=
  (workflows w).*1.

(** ** The interactive CLI *)

(** What [cli_loop] writes: a line given to [print], or the prompt of a
    call of [input]. *)
Inductive out : Type :=
  | Print (line : string)
  | Ask (prompt : string).

(** Which call of [input] the loop waits in: the one of line 207, the one
    of line 273, the one of line 277 with the name and the steps read so
    far, or none because the loop was left. *)
Inductive mode : Type :=
  | Prompting
  | AskName
  | AskStep (name : string) (new_steps : list string)
  | Exited.

Record Cli : Type := mkCli {
  workflow_mgr : WorkflowManager;
  job_mgr : JobManager;
  reading : mode;
}.

Definition newline : string := String "010"%char "".

Fixpoint spaces (n : nat) : string :=
  match n with
  | 0 => ""
  | S n' => String " "%char (spaces n')
  end.

(** A Python [str] is a sequence of code points; a string of the model is
    its UTF-8 encoding, in which every code point is one byte that is not
    of the form 10xxxxxx followed by up to three bytes that are. *)
Definition continuation (c : ascii) : bool :=
  match c with
  | Ascii _ _ _ _ _ _ b6 b7 => b7 && negb b6
  end.

(** [len(s)]: the number of code points. *)
Fixpoint len (s : string) : nat :=
  match s with
  | "" => 0
  | String c s' => (if continuation c then 0 else 1) + len s'
  end.

(** [s[:n]]: the first [n] code points. *)
Fixpoint slice_to (n : nat) (s : string) : string :=
  match s with
  | "" => ""
  | String c s' =>
      if continuation c then String c (slice_to n s')
      else match n with
           | 0 => ""
           | S n' => String c (slice_to n' s')
           end
  end.

(** The format specification [:<width] applied to a string: spaces are
    added on the right up to [width] code points. *)
Definition ljust (width : nat) (s : string) : string :=
  s +:+ spaces (width - len s).

(** Line 244 *)
Definition jobs_header : string :=
  newline +:+ ljust 10 "ID" +:+ " " +:+ ljust 20 "NAME" +:+ " "
  +:+ ljust 12 "STATUS" +:+ " " +:+ ljust 10 "STARTED".

(** Line 245: ["-" * 55] *)
Definition jobs_rule : string :=
  "-------------------------------------------------------".

(** Line 247 *)
Definition job_row (job : Job) : string :=
  ljust 10 (id job) +:+ " "
  +:+ ljust 20 (slice_to 18 (name job)) +:+ " "
  +:+ ljust 12 (status job) +:+ " " +:+ ljust 10 (created_at job).

(** Lines 217-219: the loop over [job_mgr.jobs.values()] that cancels the
    task of every Job with status RUNNING.  The flag tells whether the
    loop was left by the [AttributeError] that [job.task.cancel()] raises
    for a Job without task. *)
Fixpoint stop_jobs (entries : list (string * nat)) (m : JobManager)
  : JobManager * bool :=
  match entries with
  | [] => (m, false)
  | kv :: rest =>
      match objects m !! kv.2 with
      | Some job =>
          if decide (status job = "RUNNING") then
            match task job with
            | Some t =>
                stop_jobs rest
                  (mkJobManager
                     (<[kv.2 := set_task (Some (cancel t).2) job]> (objects m))
                     (jobs m))
            | None => (m, true)
            end
          else stop_jobs rest m
      | None => stop_jobs rest m
      end
  end.

(** The prompt of the call of [input] the loop reaches next. *)
Definition next_prompt (r : mode) : list out :=
  match r with
  | Prompting => [Ask (newline +:+ "(cli) > ")]
  | AskName => [Ask "Enter workflow name: "]
  | AskStep _ new_steps =>
      [Ask ("Step " +:+ pretty (length new_steps + 1) +:+ ": ")]
  | Exited => []
  end.

Section Cli.

(** The string methods of Python the loop calls. *)
Variable strip : string → string.
Variable lower : string → string.
Variable split : string → list string.

(** Lines 209-286: one command, given as the words of the line; [uuid4],
    [now] and [ex] are what [create_job] meets if the command starts a
    Job. *)
Definition command (parts : list string) (uuid4 now : string) (ex : Executor)
    (c : Cli) : list out * Cli :=
  match parts with
  | [] => ([], c)
  | word :: args =>
      let cmd := lower word in
      if decide (cmd = "exit" ∨ cmd = "quit") then
        let r := stop_jobs (jobs (job_mgr c)) (job_mgr c) in
        if r.2
        then ([Print "Stopping all jobs and exiting...";
               Print "CLI Error: 'NoneType' object has no attribute 'cancel'"],
              mkCli (workflow_mgr c) r.1 Prompting)
        else ([Print "Stopping all jobs and exiting..."],
              mkCli (workflow_mgr c) r.1 Exited)
      else if decide (cmd = "list") then
        (Print (newline +:+ "Available Workflows:")
         :: ((λ name, Print (" - " +:+ name))
             <$> list_workflows (workflow_mgr c)),
         c)
      else if decide (cmd = "start") then
        match args with
        | [] => ([Print "❌ Usage: start <workflow_name>"], c)
        | name :: _ =>
            match get_workflow name (workflow_mgr c) with
            | [] => ([Print ("❌ Workflow '" +:+ name +:+ "' not found.")], c)
            | steps =>
                let r := create_job uuid4 now ex name steps (job_mgr c) in
                ([Print ("✅ Job started! ID: " +:+ r.1
                         +:+ " (Type 'jobs' to view status)")],
                 mkCli (workflow_mgr c) r.2 Prompting)
            end
        end
      else if decide (cmd = "jobs") then
        match list_jobs (job_mgr c) with
        | [] => ([Print "No jobs found."], c)
        | jobs =>
            (Print jobs_header :: Print jobs_rule
             :: ((λ job, Print (job_row job)) <$> jobs),
             c)
        end
      else if decide (cmd = "logs") then
        match args with
        | [] => ([Print "❌ Usage: logs <job_id>"], c)
        | job_id :: _ =>
            match get_job job_id (job_mgr c) with
            | None => ([Print "❌ Job not found."], c)
            | Some job =>
                (Print (newline +:+ "--- Logs for Job " +:+ id job +:+ " ("
                        +:+ name job +:+ ") ---")
                 :: (Print <$> logs job)
                 ++ [Print "------------------------------------------"],
                 c)
            end
        end
      else if decide (cmd = "kill") then
        match args with
        | [] => ([Print "❌ Usage: kill <job_id>"], c)
        | job_id :: _ =>
            let r := cancel_job job_id (job_mgr c) in
            ([Print (if r.1
                     then "⚠️ Job " +:+ job_id +:+ " cancelled."
                     else "❌ Could not cancel job (maybe already finished or invalid ID).")],
             mkCli (workflow_mgr c) r.2 Prompting)
        end
      else if decide (cmd = "create") then
        ([], mkCli (workflow_mgr c) (job_mgr c) AskName)
      else
        ([Print "❌ Unknown command. Try 'help' or list available commands."],
         c)
  end.

(** One line typed by the operator, taken by the call of [input] the loop
    waits in; what is written up to and including the next prompt. *)
Definition feed (user_input uuid4 now : string) (ex : Executor) (c : Cli)
  : list out * Cli :=
  let r :=
    match reading c with
    | Prompting => command (split (strip user_input)) uuid4 now ex c
    | AskName =>
        ([Print "Enter steps (type 'done' to finish):"],
         mkCli (workflow_mgr c) (job_mgr c) (AskStep user_input []))
    | AskStep name new_steps =>
        if decide (lower user_input = "done") then
          match new_steps with
          | [] => ([], mkCli (workflow_mgr c) (job_mgr c) Prompting)
          | _ =>
              ([Print ("✅ Workflow '" +:+ name +:+ "' created.")],
               mkCli (add_workflow name new_steps (workflow_mgr c))
                     (job_mgr c) Prompting)
          end
        else
          ([], mkCli (workflow_mgr c) (job_mgr c)
                     (AskStep name
                        (if decide (strip user_input = "") then new_steps
                         else new_steps ++ [user_input])))
    | Exited => ([], c)
    end in
  (r.1 ++ next_prompt (reading r.2), r.2).

(** What happens while [cli_loop] runs: the operator enters a line, or,
    while the loop waits for one, the event loop gives a task a slice. *)
Inductive happening : Type :=
  | Typed (user_input uuid4 now : string) (ex : Executor)
  | Slice (a : nat).

Definition happen (c : Cli) (h : happening) : list out * Cli :=
  match h with
  | Typed user_input uuid4 now ex => feed user_input uuid4 now ex c
  | Slice a =>
      match reading c with
      | Exited => ([], c)
      | _ => ([], mkCli (workflow_mgr c) (run_task a (job_mgr c)).2 (reading c))
      end
  end.

Fixpoint session (hs : list happening) (c : Cli) : list out * Cli :=
  match hs with
  | [] => ([], c)
  | h :: hs' =>
      let r := happen c h in
      let r' := session hs' r.2 in
      (r.1 ++ r'.1, r'.2)
  end.

End Cli.

(** Lines 188-202 and the first call of [input]. *)
Definition cli_loop : list out * Cli :=
  ([Print "==============================================";
    Print " 🚀 Multi-Agent Background Job System CLI";
    Print "==============================================";
    Print "Commands:";
    Print "  start <workflow_name>  -> Run a workflow in background";
    Print "  list                   -> List available workflows";
    Print "  jobs                   -> Show status of background jobs";
    Print "  logs <job_id>          -> View logs for a specific job";
    Print "  kill <job_id>          -> Stop a running job";
    Print "  create                 -> Create a new workflow";
    Print "  exit                   -> Quit";
    Print ("==============================================" +:+ newline)]
   ++ next_prompt Prompting,
   mkCli new_workflow_manager new_manager Prompting).

(** The calls of [cancel_job] that do what the loop of lines 217-219
    does. *)
Definition stop_events (entries : list (string * nat)) (m : JobManager)
  : list event :=
  omap (λ kv, match objects m !! kv.2 with
              | Some job =>
                  if decide (status job = "RUNNING")
                  then Some (CancelJob kv.1) else None
              | None => None
              end) entries.

(** Events in which [create_job] is never given an empty list of steps. *)
Definition with_steps (e : event) : Prop :=
  match e with
  | CreateJob _ _ _ _ steps => steps ≠ []
  | _ => True
  end.

(** What holds of the two managers throughout a run of [cli_loop]: the
    JobManager is in a state it reaches by calls of its methods and slices
    of its tasks, none of the calls of [create_job] with an empty list of
    steps; and no stored workflow is empty. *)
Definition cli_ok (c : Cli) : Prop :=
  (∃ evs, job_mgr c = run evs new_manager ∧ Forall with_steps evs)
  ∧ Forall (λ kv, kv.2 ≠ []) (workflows (workflow_mgr c)).

(** [job.task.cancel()] for the task of [job], if it has one. *)
Definition request_cancel (job : Job) : Job :=
  set_task ((λ t, (cancel t).2) <$> task job) job.

(** Python string methods for the scenarios: lines are plain lower-case
    ASCII, split at white space. *)
Definition plain_strip (s : string) : string := s.
Definition plain_lower (s : string) : string := s.
Definition plain_split (s : string) : list string := String.words s.

(** * Properties *)

(** ** Effects on a Job *)

Lemma perform_all_app ex j acts acts' :
  perform_all ex j (acts ++ acts') = perform_all ex (perform_all ex j acts) acts'.
Proof. apply foldl_app. Qed.

Lemma perform_all_logs ex acts : ∀ j,
  logs (perform_all ex j acts) = logs j ++ render ex (length (logs j)) acts.
Proof.
  induction acts as [|x acts IH]; intros j; simpl.
  - by rewrite app_nil_r.
  - unfold perform_all in IH |- *. simpl. rewrite IH.
    destruct x; simpl; rewrite ?length_app; simpl;
      rewrite ?Nat.add_1_r, <-?app_assoc; done.
Qed.

Lemma perform_all_status ex acts : ∀ j,
  status (perform_all ex j acts) = default (status j) (last (writes acts)).
Proof.
  induction acts as [|x acts IH]; intros j; [done|].
  unfold perform_all in IH |- *. simpl. rewrite IH.
  destruct x; simpl; try done.
  fold (writes acts). destruct (writes acts) as [|w ws]; [done|].
  rewrite last_cons_cons. destruct (last (w :: ws)) eqn:E; [done|].
  by apply last_None in E.
Qed.

Lemma perform_all_frame ex acts : ∀ j,
  id (perform_all ex j acts) = id j ∧ name (perform_all ex j acts) = name j
  ∧ task (perform_all ex j acts) = task j
  ∧ created_at (perform_all ex j acts) = created_at j.
Proof.
  induction acts as [|x acts IH]; intros j; [done|].
  unfold perform_all in IH |- *. simpl.
  destruct (IH (perform ex j x)) as (-> & -> & -> & ->). by destruct x.
Qed.

(** ** The shape of one slice *)

Lemma writes_app acts acts' : writes (acts ++ acts') = writes acts ++ writes acts'.
Proof. apply omap_app. Qed.

Lemma render_app ex acts : ∀ n acts',
  render ex n (acts ++ acts')
  = render ex n acts ++ render ex (n + length (render ex n acts)) acts'.
Proof.
  induction acts as [|x acts IH]; intros n acts'; simpl.
  - by rewrite Nat.add_0_r.
  - destruct x; simpl; rewrite IH, ?Nat.add_succ_r; done.
Qed.

Lemma plain_writes acts : Forall plain acts → writes acts = [].
Proof.
  induction 1 as [|x acts Hx _ IH]; [done|]. by destruct x.
Qed.

Lemma settle_plain i o k : Forall plain k.1 → Forall plain (settle i o k).1.
Proof.
  intros Hk. destruct o as [?|[?| |?]]; simpl; repeat constructor; done.
Qed.

Lemma steps_from_plain ex steps : ∀ i, Forall plain (steps_from ex i steps).1.
Proof.
  induction steps as [|step rest IH]; intros i; simpl.
  - by repeat constructor.
  - do 2 (constructor; [done|]).
    destruct (run_debug ex i step); [|done].
    by apply (settle_plain i o (steps_from ex (S i) rest)).
Qed.

Lemma setup_plain ex : Forall plain (setup ex).1.
Proof. unfold setup. destruct (setup_tools ex); by repeat constructor. Qed.

Lemma run_steps_plain ex steps : Forall plain (run_steps ex true steps).1.
Proof.
  unfold run_steps. simpl. constructor; [done|]. apply steps_from_plain.
Qed.

Lemma try_block_plain ex steps : Forall plain (try_block ex steps).1.
Proof.
  unfold try_block. destruct (setup ex).2 eqn:E; cbn [fst snd].
  - apply setup_plain.
  - apply Forall_app. split; [apply setup_plain|apply run_steps_plain].
Qed.

Lemma leave_try_closing r :
  ∃ tail, (leave_try r).1 = r.1 ++ tail ∧ closing tail (leave_try r).2.
Proof.
  destruct r as [acts f]. unfold leave_try. cbn [fst snd].
  destruct f as [[[msg| |msg]|]|]; cbn [fst snd closing]; eauto 6.
  exists []. by rewrite app_nil_r.
Qed.

Lemma _run_job_shape ex steps :
  ∃ p tail, (_run_job ex steps).1 = SetStatus "RUNNING" :: p ++ tail
            ∧ Forall plain p
            ∧ closing tail (_run_job ex steps).2.
Proof.
  unfold _run_job. cbn [fst snd].
  destruct (leave_try_closing (try_block ex steps)) as (tail & -> & Hc).
  exists (try_block ex steps).1, tail.
  split_and!; [done| |done]. apply try_block_plain.
Qed.

Lemma resume_shape ex i rest o :
  ∃ p tail, (resume ex i rest o).1 = p ++ tail
            ∧ Forall plain p
            ∧ closing tail (resume ex i rest o).2.
Proof.
  unfold resume.
  destruct (leave_try_closing (settle i o (steps_from ex (S i) rest)))
    as (tail & -> & Hc).
  eexists _, tail. split_and!; [done| |done].
  apply settle_plain, steps_from_plain.
Qed.

Lemma closing_writes tail c :
  closing tail c →
  match c with
  | Returned => ∃ s, terminal s = true ∧ writes tail = [s]
  | _ => tail = []
  end.
Proof.
  destruct c; simpl; try done; [|by intros [-> _]].
  intros [->|[->|[msg ->]]]; eexists; (split; [|reflexivity]); reflexivity.
Qed.

Lemma task_step_phase ex mc c acts :
  phase_ok c acts → phase_ok (task_step ex mc c).2 (acts ++ (task_step ex mc c).1).
Proof.
  destruct c as [steps|i step rest o c'| | |e]; simpl.
  - intros ->. destruct mc; [done|].
    destruct (_run_job_shape ex steps) as (p & tail & -> & Hp & Hc).
    destruct (_run_job ex steps).2; simpl in *; try done.
    + subst tail. exists p. by rewrite app_nil_r.
    + by exists p, tail.
    + destruct Hc as [-> He]. split; [|done]. exists p. by rewrite app_nil_r.
  - intros (p0 & -> & Hp0).
    destruct (resume_shape ex i rest (if mc then c' else o))
      as (p & tail & -> & Hp & Hc).
    destruct (resume ex i rest (if mc then c' else o)).2; simpl in *; try done.
    + subst tail. exists (p0 ++ p). rewrite app_nil_r. split; [done|].
      by apply Forall_app.
    + exists (p0 ++ p), tail. rewrite <-app_assoc. split_and!; try done.
      by apply Forall_app.
    + destruct Hc as [-> He]. split; [|done]. exists (p0 ++ p).
      rewrite app_nil_r. split; [done|]. by apply Forall_app.
  - by rewrite app_nil_r.
  - by rewrite app_nil_r.
  - by rewrite app_nil_r.
Qed.

(** ** Histories *)

Lemma actions_at_app a h h' :
  actions_at a (h ++ h') = actions_at a h ++ actions_at a h'.
Proof. unfold actions_at. by rewrite filter_app, fmap_app. Qed.

Lemma actions_at_tagged a b (acts : list action) :
  actions_at a ((λ x, (b, x)) <$> acts) = if decide (b = a) then acts else [].
Proof.
  unfold actions_at. destruct (decide (b = a)) as [->|Hne].
  - induction acts as [|x acts IH]; [done|].
    rewrite fmap_cons, filter_cons_True by done. rewrite fmap_cons.
    by rewrite IH.
  - induction acts as [|x acts IH]; [done|].
    by rewrite fmap_cons, filter_cons_False.
Qed.

Lemma history_app evs : ∀ evs' m,
  history (evs ++ evs') m = history evs m ++ history evs' (run evs m).
Proof.
  induction evs as [|e evs IH]; intros evs' m; simpl; [done|].
  by rewrite IH, app_assoc.
Qed.

Lemma run_app evs evs' m : run (evs ++ evs') m = run evs' (run evs m).
Proof. apply foldl_app. Qed.

Lemma hist_ok_new : hist_ok new_manager [].
Proof. intros a. by destruct a. Qed.

Lemma last_writes_app (s : string) ws ws' :
  default (default s (last ws)) (last ws') = default s (last (ws ++ ws')).
Proof.
  destruct ws' as [|w ws'] using rev_ind; [by rewrite app_nil_r|].
  by rewrite app_assoc, !last_snoc.
Qed.

Lemma step_job_phase j t acts :
  task j = Some t →
  status j = default "PENDING" (last (writes acts)) →
  logs j = render (world t) 0 acts →
  phase_ok (coro t) acts →
  ∃ t', task (step_job j).2 = Some t'
        ∧ world t' = world t
        ∧ status (step_job j).2
          = default "PENDING" (last (writes (acts ++ (step_job j).1)))
        ∧ logs (step_job j).2 = render (world t) 0 (acts ++ (step_job j).1)
        ∧ phase_ok (coro t') (acts ++ (step_job j).1).
Proof.
  intros Ht Hs Hl Hp. unfold step_job. rewrite Ht.
  destruct (done t) eqn:Hd; cbn [fst snd].
  - exists t. by rewrite app_nil_r.
  - eexists; split; [done|]. cbn [world coro status logs set_task].
    rewrite perform_all_status, perform_all_logs, Hs, Hl, render_app, writes_app.
    rewrite last_writes_app. split_and!; try done.
    by apply task_step_phase.
Qed.

Lemma hist_ok_step m h e :
  hist_ok m h → hist_ok (step m e) (h ++ effects m e).
Proof.
  intros Hm a. specialize (Hm a) as Ha.
  destruct e as [uuid4 now ex nm steps|k| |k|b]; simpl;
    rewrite ?app_nil_r; try done.
  - (* create_job *)
    destruct (decide (a < length (objects m))) as [Hlt|Hge].
    + by rewrite lookup_app_l.
    + rewrite lookup_ge_None_2 in Ha by lia.
      destruct (decide (a = length (objects m))) as [->|Hne].
      * rewrite list_lookup_middle by done. simpl.
        eexists; split; [done|]. simpl. unfold status_writes. by rewrite Ha.
      * rewrite lookup_ge_None_2; [done|]. rewrite length_app. simpl. lia.
  - (* cancel_job *)
    unfold cancel_job.
    destruct (dict_get k (jobs m)) as [b|]; [|done].
    destruct (objects m !! b) as [job|] eqn:Hb; [|done].
    destruct (task job) as [t|] eqn:Ht; [|done].
    destruct (done t) eqn:Hd; [done|]. simpl.
    destruct (decide (a = b)) as [->|Hne].
    + rewrite list_lookup_insert_eq by (by eapply lookup_lt_Some).
      rewrite Hb in Ha. destruct Ha as (t0 & Ht0 & Hp).
      assert (t0 = t) as -> by congruence.
      eexists; split; [done|]. unfold cancel. by rewrite Hd.
    + by rewrite list_lookup_insert_ne.
  - (* the event loop *)
    unfold status_writes. rewrite actions_at_app, actions_at_tagged.
    unfold run_task.
    destruct (objects m !! b) as [job|] eqn:Hb; simpl.
    + destruct (decide (b = a)) as [->|Hne].
      * rewrite list_lookup_insert_eq by (by eapply lookup_lt_Some).
        rewrite Hb in Ha. destruct Ha as (t & Ht & Hs & Hl & Hp).
        destruct (step_job_phase job t _ Ht Hs Hl Hp)
          as (t' & Ht' & Hw & Hs' & Hl' & Hp').
        exists t'. by rewrite Hw.
      * rewrite list_lookup_insert_ne by done. by rewrite app_nil_r.
    + destruct (decide (b = a)); by rewrite app_nil_r.
Qed.

Lemma hist_ok_run evs : ∀ m h,
  hist_ok m h → hist_ok (run evs m) (h ++ history evs m).
Proof.
  induction evs as [|e evs IH]; intros m h Hm; simpl.
  - by rewrite app_nil_r.
  - rewrite app_assoc. by apply IH, hist_ok_step.
Qed.

Lemma hist_ok_reachable evs :
  hist_ok (run evs new_manager) (history evs new_manager).
Proof. apply (hist_ok_run evs new_manager [] hist_ok_new). Qed.

(** C1. The status of every Job follows the state machine
    PENDING -> RUNNING -> {COMPLETED, FAILED, CANCELLED}: in every history
    of a JobManager the values written to the status of any Job form, after
    the initial PENDING, a path of the machine; they are no write at all,
    the single write RUNNING, or RUNNING followed by one terminal status
    and nothing more; and the status field holds the last of them. *)
Theorem status_follows_state_machine (evs : list event) (a : nat) :
  let ws := status_writes a (history evs new_manager) in
  follows_edges ("PENDING" :: ws) = true
  ∧ (ws = [] ∨ ws = ["RUNNING"]
     ∨ ∃ s, terminal s = true ∧ ws = ["RUNNING"; s])
  ∧ ∀ j, objects (run evs new_manager) !! a = Some j →
         Some (status j) = last ("PENDING" :: ws).
Proof.
  pose proof (hist_ok_reachable evs a) as H. simpl in H |- *.
  unfold status_writes in *.
  destruct (objects (run evs new_manager) !! a) as [j|] eqn:Hj.
  - destruct H as (t & Ht & Hs & _ & Hp).
    assert (∀ ws, status j = default "PENDING" (last ws) →
                  ∀ j', Some j = Some j' →
                        Some (status j') = last ("PENDING" :: ws)) as Hlast.
    { intros ws Hws j' [= <-]. rewrite Hws.
      destruct ws as [|w ws]; [done|]. rewrite last_cons_cons.
      destruct (last (w :: ws)) eqn:E; [done|]. by apply last_None in E. }
    destruct (coro t); simpl in Hp.
    + rewrite Hp in *. split_and!; [done|by left|by apply Hlast].
    + destruct Hp as (p & Hacts & Hp).
      assert (writes (actions_at a (history evs new_manager)) = ["RUNNING"])
        as Hw by (rewrite Hacts; simpl; by rewrite (plain_writes p)).
      rewrite Hw in *. split_and!; [done|by right; left|by apply Hlast].
    + destruct Hp as (p & tail & Hacts & Hp & Hc).
      apply (closing_writes tail Returned) in Hc as (s & Hterm & Htail).
      assert (writes (actions_at a (history evs new_manager)) = ["RUNNING"; s])
        as Hw.
      { rewrite Hacts. simpl. fold (writes (p ++ tail)).
        by rewrite writes_app, (plain_writes p), Htail. }
      rewrite Hw in *.
      split_and!; [|right; right; by exists s|by apply Hlast].
      simpl. unfold edge. by rewrite Hterm.
    + rewrite Hp in *. split_and!; [done|by left|by apply Hlast].
    + destruct Hp as [(p & Hacts & Hp) _].
      assert (writes (actions_at a (history evs new_manager)) = ["RUNNING"])
        as Hw by (rewrite Hacts; simpl; by rewrite (plain_writes p)).
      rewrite Hw in *. split_and!; [done|by right; left|by apply Hlast].
  - rewrite H. split_and!; [done|by left|done].
Qed.

(** ** A task nobody cancels *)

Lemma uncancelled_done ex n c :
  (c = Returned ∨ c = Cancelled) → uncancelled ex n c = ([], c).
Proof.
  intros Hc. induction n as [|n IH]; [done|].
  simpl. destruct Hc as [-> | ->]; simpl; simpl in IH; by rewrite IH.
Qed.

Lemma steps_from_cons ex i step rest :
  steps_from ex i (step :: rest)
  = prepend [AgentLog ("Step " +:+ pretty i +:+ ": " +:+ step); Await i step]
      match run_debug ex i step with
      | Immediate o => settle i o (steps_from ex (S i) rest)
      | Suspends o c => ([], Suspended i step rest o c)
      end.
Proof. done. Qed.

Lemma settle_return i r k :
  settle i (Return r) k = prepend [AgentLog ("Result: " +:+ r)] k.
Proof. done. Qed.

Lemma leave_try_prepend p r : leave_try (prepend p r) = prepend p (leave_try r).
Proof.
  destruct r as [acts f]. unfold leave_try, prepend. cbn [fst snd].
  destruct f as [[e|]|]; cbn [fst snd]; by rewrite <-?app_assoc.
Qed.

Lemma uncancelled_raised ex n e : uncancelled ex n (Raised e) = ([], Raised e).
Proof.
  induction n as [|n IH]; [done|]. simpl. simpl in IH. by rewrite IH.
Qed.

Lemma extend_prepend ex n p l :
  extend ex n (prepend p l) = prepend p (extend ex n l).
Proof. unfold extend, prepend. cbn [fst snd]. by rewrite app_assoc. Qed.

Lemma extend_returned ex n acts : extend ex n (acts, Returned) = (acts, Returned).
Proof.
  unfold extend. cbn [fst snd]. rewrite uncancelled_done by auto.
  by rewrite app_nil_r.
Qed.

Lemma extend_raised ex n acts e :
  extend ex n (acts, Raised e) = (acts, Raised e).
Proof.
  unfold extend. cbn [fst snd]. rewrite uncancelled_raised.
  by rewrite app_nil_r.
Qed.

Lemma extend_in_step ex n i step rest o c :
  extend ex (S n) ([], InStep i step rest o c) = extend ex n (resume ex i rest o).
Proof. done. Qed.

Lemma steps_from_synchronous ex steps : ∀ i n,
  length steps ≤ n →
  extend ex n (leave_try (steps_from ex i steps))
  = leave_try (steps_from (synchronous ex) i steps).
Proof.
  induction steps as [|step rest IH]; intros i n Hn.
  - apply extend_returned.
  - simpl in Hn. rewrite !steps_from_cons. cbn [synchronous run_debug].
    rewrite !leave_try_prepend, extend_prepend. f_equal.
    destruct (run_debug ex i step) as [o|o c]; cbn [unsuspend].
    + destruct o as [r|[msg| |msg]].
      * rewrite !settle_return, !leave_try_prepend, extend_prepend.
        by rewrite IH by lia.
      * apply extend_returned.
      * apply extend_returned.
      * apply extend_raised.
    + destruct n as [|n]; [lia|].
      change (leave_try ([], Suspended i step rest o c))
        with (([], InStep i step rest o c) : list action * Coro).
      rewrite extend_in_step. unfold resume.
      destruct o as [r|[msg| |msg]].
      * rewrite !settle_return, !leave_try_prepend, extend_prepend.
        by rewrite IH by lia.
      * apply extend_returned.
      * apply extend_returned.
      * apply extend_raised.
Qed.

Lemma try_block_ok ex steps :
  setup_tools ex = None →
  try_block ex steps
  = prepend (AgentLog <$> opening steps) (steps_from ex 1 steps).
Proof. intros H. unfold try_block, setup. by rewrite H. Qed.

Lemma try_block_failed ex steps e :
  setup_tools ex = Some e →
  try_block ex steps
  = ([AgentLog "Initializing Agent & Tools..."], Finished (Some e)).
Proof. intros H. unfold try_block, setup. by rewrite H. Qed.

Lemma _run_job_prepend ex steps :
  _run_job ex steps
  = prepend [SetStatus "RUNNING"] (leave_try (try_block ex steps)).
Proof. done. Qed.

(** A task that is given more slices than it has steps, and is not
    cancelled, does what it would do if no call ever suspended. *)
Lemma uncancelled_synchronous ex steps n :
  length steps < n →
  uncancelled ex n (Created steps) = _run_job (synchronous ex) steps.
Proof.
  destruct n as [|n]; [lia|]. intros Hn.
  change (uncancelled ex (S n) (Created steps))
    with (extend ex n (_run_job ex steps)).
  rewrite !_run_job_prepend, extend_prepend. f_equal.
  destruct (setup_tools ex) as [e|] eqn:E.
  - rewrite (try_block_failed ex steps e), (try_block_failed _ steps e) by done.
    destruct e; [apply extend_returned..|apply extend_raised].
  - rewrite !try_block_ok, !leave_try_prepend, extend_prepend by done.
    f_equal. apply steps_from_synchronous. lia.
Qed.

Lemma steps_from_responds ex steps : ∀ i rs,
  responds ex i steps rs →
  steps_from (synchronous ex) i steps
  = prepend (step_actions i steps rs)
      ([AgentLog "✅ Workflow completed successfully."], Finished None).
Proof.
  induction steps as [|step rest IH]; intros i [|r rs]; simpl; try done.
  intros [Hr Hrs]. rewrite Hr. simpl. by rewrite (IH _ rs).
Qed.


(** ** Log lines of a run of actions *)


Lemma length_stamped ex msgs : ∀ n, length (stamped ex n msgs) = length msgs.
Proof. induction msgs as [|x msgs IH]; intros n; simpl; by rewrite ?IH. Qed.

Lemma render_agent ex acts : ∀ n,
  Forall (λ x, ∀ msg, x ≠ JobLog msg) acts →
  render ex n acts = stamped ex n (agent_msgs acts).
Proof.
  induction acts as [|x acts IH]; intros n Hacts; [done|].
  apply Forall_cons in Hacts as [Hx Hacts].
  destruct x; simpl; rewrite ?IH by done; try done.
  by destruct (Hx msg).
Qed.

Lemma render_plain ex p n :
  Forall plain p → render ex n p = stamped ex n (agent_msgs p).
Proof.
  intros Hp. apply render_agent. eapply Forall_impl; [exact Hp|].
  intros x Hx msg ->. done.
Qed.

Lemma agent_msgs_app acts acts' :
  agent_msgs (acts ++ acts') = agent_msgs acts ++ agent_msgs acts'.
Proof. apply omap_app. Qed.

Lemma agent_msgs_logs msgs : agent_msgs (AgentLog <$> msgs) = msgs.
Proof.
  induction msgs as [|x msgs IH]; [done|].
  unfold agent_msgs in *. csimpl. by rewrite IH.
Qed.

Lemma agent_msgs_step_actions steps : ∀ i rs,
  agent_msgs (step_actions i steps rs) = step_lines i steps rs.
Proof.
  induction steps as [|step rest IH]; intros i [|r rs]; simpl; try done.
  by rewrite IH.
Qed.

Lemma awaits_app acts acts' : awaits (acts ++ acts') = awaits acts ++ awaits acts'.
Proof. apply omap_app. Qed.

Lemma awaits_logs msgs : awaits (AgentLog <$> msgs) = [].
Proof. by induction msgs. Qed.

Lemma awaits_step_actions steps : ∀ i rs,
  length rs = length steps →
  awaits (step_actions i steps rs) = zip (seq i (length steps)) steps.
Proof.
  induction steps as [|step rest IH]; intros i [|r rs]; simpl; try done.
  intros [= H]. by rewrite IH.
Qed.

Lemma responds_length ex steps : ∀ i rs,
  responds ex i steps rs → length rs = length steps.
Proof.
  induction steps as [|step rest IH]; intros i [|r rs]; simpl; try done.
  intros [_ H]. by rewrite (IH _ _ H).
Qed.

(** ** The dictionary and the Job objects *)

Lemma dict_get_set_eq {V} k (v : V) d : dict_get k (dict_set k v d) = Some v.
Proof.
  induction d as [|[k' v'] d IH]; simpl.
  - by rewrite decide_True.
  - destruct (decide (k' = k)) as [->|Hne]; simpl.
    + by rewrite decide_True.
    + by rewrite decide_False.
Qed.

Lemma dict_get_set_ne {V} k k' (v : V) d :
  k ≠ k' → dict_get k' (dict_set k v d) = dict_get k' d.
Proof.
  intros Hne. induction d as [|[k0 v0] d IH]; simpl.
  - by rewrite decide_False.
  - destruct (decide (k0 = k)) as [->|Hne0]; simpl.
    + by rewrite !decide_False.
    + by rewrite IH.
Qed.

Lemma dict_set_fresh {V} k (v : V) d :
  dict_get k d = None → dict_set k v d = d ++ [(k, v)].
Proof.
  induction d as [|[k0 v0] d IH]; simpl; [done|].
  destruct (decide (k0 = k)); [done|]. intros H. by rewrite IH.
Qed.

Lemma dict_get_is_Some {V} k (d : list (string * V)) :
  is_Some (dict_get k d) ↔ k ∈ d.*1.
Proof.
  induction d as [|[k0 v0] d IH]; simpl.
  - split; [by intros [? ?]|by intros ?%elem_of_nil].
  - rewrite elem_of_cons. destruct (decide (k0 = k)) as [->|Hne].
    + split; eauto.
    + rewrite IH. split; [by right|]. by intros [?|?].
Qed.

Lemma step_job_frame j :
  id (step_job j).2 = id j ∧ name (step_job j).2 = name j
  ∧ created_at (step_job j).2 = created_at j.
Proof.
  unfold step_job. destruct (task j) as [t|]; [|done].
  destruct (done t); [done|]. cbn [snd id name created_at set_task].
  by destruct (perform_all_frame (world t) (task_step (world t) (must_cancel t)
                                              (coro t)).1 j) as (-> & -> & _ & ->).
Qed.

Lemma reg_ok_step m e : reg_ok m → reg_ok (step m e).
Proof.
  intros Hm k b. destruct e as [uuid4 now ex nm steps|k'| |k'|b']; simpl;
    try apply Hm.
  - (* create_job *)
    set (job_id := Strings.String.substring 0 8 uuid4).
    destruct (decide (job_id = k)) as [<-|Hne].
    + rewrite dict_get_set_eq. intros [= <-].
      rewrite list_lookup_middle by done. by eexists.
    + rewrite dict_get_set_ne by done. intros (j & Hj & Hid)%Hm.
      exists j. split; [|done]. apply lookup_app_l_Some, Hj.
  - (* cancel_job *)
    unfold cancel_job.
    destruct (dict_get k' (jobs m)) as [a|]; [|apply Hm].
    destruct (objects m !! a) as [job|] eqn:Ha; [|apply Hm].
    destruct (task job) as [t|]; [|apply Hm].
    destruct (done t); [apply Hm|]. simpl.
    intros (j & Hj & Hid)%Hm. destruct (decide (b = a)) as [->|Hne].
    + rewrite list_lookup_insert_eq by (by eapply lookup_lt_Some).
      eexists; split; [done|]. simpl. congruence.
    + rewrite list_lookup_insert_ne by done. eauto.
  - (* the event loop *)
    unfold run_task. destruct (objects m !! b') as [job|] eqn:Hb; [|apply Hm].
    simpl. intros (j & Hj & Hid)%Hm. destruct (decide (b = b')) as [->|Hne].
    + rewrite list_lookup_insert_eq by (by eapply lookup_lt_Some).
      eexists; split; [done|]. destruct (step_job_frame job) as (-> & _).
      congruence.
    + rewrite list_lookup_insert_ne by done. eauto.
Qed.

Lemma reg_ok_run evs : ∀ m, reg_ok m → reg_ok (run evs m).
Proof.
  induction evs as [|e evs IH]; intros m Hm; [done|].
  by apply IH, reg_ok_step.
Qed.

Lemma reg_ok_new : reg_ok new_manager.
Proof. by intros k b. Qed.

(** ** One Job among the others *)

Lemma set_task_task j t : task j = Some t → set_task (Some t) j = j.
Proof. destruct j. simpl. by intros ->. Qed.

Lemma perform_all_set_task ex t acts : ∀ j,
  perform_all ex (set_task t j) acts = set_task t (perform_all ex j acts).
Proof.
  induction acts as [|x acts IH]; intros j; [done|].
  unfold perform_all in *. simpl. rewrite <-IH. by destruct x.
Qed.

Lemma step_job_calm j c ex :
  task j = Some (mkTask c false ex) →
  step_job j
  = ((task_step ex false c).1,
     set_task (Some (mkTask (task_step ex false c).2 false ex))
              (perform_all ex j (task_step ex false c).1)).
Proof.
  intros Ht. unfold step_job. rewrite Ht. unfold done. cbn [coro world must_cancel].
  destruct c; try done; simpl; by rewrite set_task_task.
Qed.

Lemma slices_cons a e evs :
  slices a (e :: evs) = if is_run a e then S (slices a evs) else slices a evs.
Proof.
  unfold slices. destruct (is_run a e) eqn:E.
  - by rewrite filter_cons_True.
  - rewrite filter_cons_False; [done|]. by rewrite E.
Qed.

(** A method call or a slice of another task leaves a Job alone, except
    for [cancel_job] called with its id. *)
Lemma step_other a m e j :
  reg_ok m → objects m !! a = Some j →
  is_run a e = false → is_cancel (id j) e = false →
  objects (step m e) !! a = Some j ∧ actions_at a (effects m e) = [].
Proof.
  intros Hm Ha Hrun Hcan.
  destruct e as [uuid4 now ex nm steps|k| |k|b]; simpl in *; try done.
  - split; [|done]. by apply lookup_app_l_Some.
  - split; [|done]. apply bool_decide_eq_false in Hcan. unfold cancel_job.
    destruct (dict_get k (jobs m)) as [b|] eqn:Hk; [|done].
    destruct (Hm k b Hk) as (jb & Hb & Hid). rewrite Hb.
    destruct (task jb) as [t|]; [|done]. destruct (done t); [done|]. simpl.
    rewrite list_lookup_insert_ne; [done|]. intros ->. congruence.
  - apply bool_decide_eq_false in Hrun. rewrite actions_at_tagged.
    rewrite decide_False by done. split; [|done]. unfold run_task.
    destruct (objects m !! b); [|done]. simpl.
    by rewrite list_lookup_insert_ne.
Qed.

(** The Job at [a], as long as nobody calls [cancel_job] with its id, is
    taken through its slices by the event loop whatever else happens. *)
Lemma evolve a evs : ∀ m j c ex,
  reg_ok m → objects m !! a = Some j → task j = Some (mkTask c false ex) →
  Forall (λ e, is_cancel (id j) e = false) evs →
  objects (run evs m) !! a
  = Some (set_task (Some (mkTask (uncancelled ex (slices a evs) c).2 false ex))
                   (perform_all ex j (uncancelled ex (slices a evs) c).1))
  ∧ actions_at a (history evs m) = (uncancelled ex (slices a evs) c).1.
Proof.
  induction evs as [|e evs IH]; intros m j c ex Hm Ha Ht Hcan.
  - simpl. by rewrite set_task_task.
  - apply Forall_cons in Hcan as [He Hcan]. rewrite slices_cons.
    cbn [run foldl history]. fold (run evs (step m e)).
    rewrite actions_at_app. destruct (is_run a e) eqn:Hrun.
    + destruct e as [| | | |b]; try done. simpl in Hrun.
      apply bool_decide_eq_true in Hrun as ->.
      cbn [step effects]. rewrite actions_at_tagged, decide_True by done.
      unfold run_task. rewrite Ha. cbn [fst snd].
      rewrite (step_job_calm j c ex Ht). cbn [fst snd].
      set (r := task_step ex false c).
      set (j' := set_task (Some (mkTask r.2 false ex)) (perform_all ex j r.1)).
      destruct (IH (mkJobManager (<[a:=j']> (objects m)) (jobs m)) j' r.2 ex)
        as [Hobj Hacts].
      * apply (reg_ok_step m (RunTask a)) in Hm. revert Hm. cbn [step].
        unfold run_task. rewrite Ha. cbn [fst snd].
        by rewrite (step_job_calm j c ex Ht).
      * cbn [objects]. apply list_lookup_insert_eq. by eapply lookup_lt_Some.
      * done.
      * unfold j'. cbn [id set_task].
        by destruct (perform_all_frame ex r.1 j) as (-> & _).
      * rewrite Hobj, Hacts. cbn [uncancelled fst snd]. fold r. split; [|done].
        unfold j'. rewrite perform_all_set_task, perform_all_app.
        by destruct (perform_all ex _ _).
    + destruct (step_other a m e j Hm Ha Hrun He) as [Ha' ->].
      by apply IH; [apply reg_ok_step|..].
Qed.

(** ** Jobs that run to their end *)

Lemma _run_job_succeeds ex steps rs :
  setup_tools ex = None → responds ex 1 steps rs →
  _run_job (synchronous ex) steps
  = (SetStatus "RUNNING"
     :: ((AgentLog <$> opening steps) ++ step_actions 1 steps rs
         ++ [AgentLog "✅ Workflow completed successfully."])
        ++ [SetStatus "COMPLETED"],
     Returned).
Proof.
  intros Hs Hr. rewrite _run_job_prepend, try_block_ok by done.
  rewrite (steps_from_responds ex steps 1 rs Hr), !leave_try_prepend.
  unfold prepend, leave_try. cbn [fst snd app]. by rewrite <-!app_assoc.
Qed.


(** The status and the log after a finished run: [p] are the actions of
    the WebAgent, [tail] those of line 161 or of a handler. *)
Lemma finished_run ex p tail :
  Forall plain p →
  default "PENDING" (last (writes (SetStatus "RUNNING" :: p ++ tail)))
  = default "RUNNING" (last (writes tail))
  ∧ render ex 0 (SetStatus "RUNNING" :: p ++ tail)
    = stamped ex 0 (agent_msgs p) ++ render ex (length (agent_msgs p)) tail.
Proof.
  intros Hp. split.
  - change (SetStatus "RUNNING" :: p ++ tail)
      with ([SetStatus "RUNNING"] ++ p ++ tail).
    rewrite !writes_app, (plain_writes p Hp). simpl.
    destruct (writes tail) as [|w ws]; [done|]. rewrite last_cons_cons.
    destruct (last (w :: ws)) eqn:E; [done|]. by apply last_None in E.
  - cbn [render]. rewrite render_app, (render_plain ex p 0 Hp).
    by rewrite length_stamped.
Qed.

Lemma plain_logs msgs : Forall plain (AgentLog <$> msgs).
Proof. by apply Forall_fmap, Forall_true. Qed.

Lemma plain_step_actions steps : ∀ i rs, Forall plain (step_actions i steps rs).
Proof.
  induction steps as [|step rest IH]; intros i [|r rs]; simpl; auto.
  by repeat (constructor; [done|]).
Qed.

(** The Job made by [create_job], and where it lives. *)
Lemma create_job_object uuid4 now ex nm steps m :
  objects (create_job uuid4 now ex nm steps m).2 !! length (objects m)
  = Some (mkJob (Strings.String.substring 0 8 uuid4) nm "PENDING" []
                (Some (mkTask (Created steps) false ex)) now).
Proof. simpl. by rewrite list_lookup_middle. Qed.

(** A Job nobody cancels is, whatever else goes on in the process, what
    the slices given to its task make of the Job [create_job] made. *)
Lemma job_after evs0 uuid4 now ex nm steps evs :
  let m0 := run evs0 new_manager in
  let a := length (objects m0) in
  let job_id := Strings.String.substring 0 8 uuid4 in
  let create := CreateJob uuid4 now ex nm steps in
  let r := uncancelled ex (slices a evs) (Created steps) in
  Forall (λ e, is_cancel job_id e = false) evs →
  (∃ j t, objects (run (evs0 ++ create :: evs) new_manager) !! a = Some j
          ∧ task j = Some t ∧ coro t = r.2
          ∧ status j = default "PENDING" (last (writes r.1))
          ∧ logs j = render ex 0 r.1)
  ∧ actions_at a (history (evs0 ++ create :: evs) new_manager) = r.1.
Proof.
  intros m0 a job_id create r Hcan.
  pose proof (create_job_object uuid4 now ex nm steps m0) as Hobj.
  assert (reg_ok (step m0 create)) as Hreg
    by apply reg_ok_step, reg_ok_run, reg_ok_new.
  destruct (evolve a evs (step m0 create) _ (Created steps) ex
                   Hreg Hobj eq_refl Hcan) as [Hj Hacts].
  rewrite run_app, history_app, actions_at_app.
  pose proof (hist_ok_reachable evs0 a) as H0. fold m0 in H0.
  unfold a at 1 in H0. rewrite lookup_ge_None_2 in H0 by done. rewrite H0.
  split; [|done]. eexists _, _. split; [exact Hj|].
  cbn [task coro status logs set_task].
  by rewrite perform_all_status, perform_all_logs.
Qed.

Lemma uncancelled_setup_fails ex steps e n :
  setup_tools ex = Some e → 0 < n →
  uncancelled ex n (Created steps)
  = (SetStatus "RUNNING" :: AgentLog "Initializing Agent & Tools..."
     :: handler e,
     match e with
     | BaseException _ => Raised e
     | Exception _ | CancelledError => Returned
     end).
Proof.
  intros He Hn. destruct n as [|n]; [lia|].
  change (uncancelled ex (S n) (Created steps))
    with (extend ex n (_run_job ex steps)).
  rewrite _run_job_prepend, (try_block_failed ex steps e He).
  destruct e; [apply extend_returned..|apply extend_raised].
Qed.

(** C2. A Job with N steps whose setup succeeds, whose [run_debug] calls
    all return, and which nobody cancels ends with status COMPLETED and a
    log that holds, after the three opening lines, the line "Step i: ..."
    directly followed by the line "Result: ..." for each step i = 1..N in
    order, and then the completion line; this needs no more than N+1
    slices of its task, so a Job with no steps is COMPLETED by its first
    slice. *)
Theorem all_steps_succeed evs0 uuid4 now ex nm steps rs evs :
  let m0 := run evs0 new_manager in
  let a := length (objects m0) in
  let job_id := Strings.String.substring 0 8 uuid4 in
  let create := CreateJob uuid4 now ex nm steps in
  setup_tools ex = None →
  responds ex 1 steps rs →
  Forall (λ e, is_cancel job_id e = false) evs →
  length steps < slices a evs →
  ∃ j, objects (run (evs0 ++ create :: evs) new_manager) !! a = Some j
       ∧ status j = "COMPLETED"
       ∧ logs j = stamped ex 0 (opening steps ++ step_lines 1 steps rs
                                ++ ["✅ Workflow completed successfully."]).
Proof.
  intros m0 a job_id create Hs Hr Hcan Hn.
  destruct (job_after evs0 uuid4 now ex nm steps evs Hcan)
    as [(j & t & Hj & _ & _ & Hst & Hl) _].
  rewrite uncancelled_synchronous in Hst, Hl by done.
  rewrite (_run_job_succeeds ex steps rs Hs Hr) in Hst, Hl.
  cbn [fst] in Hst, Hl.
  destruct (finished_run ex
              ((AgentLog <$> opening steps) ++ step_actions 1 steps rs
               ++ [AgentLog "✅ Workflow completed successfully."])
              [SetStatus "COMPLETED"]) as [Hw Hr'].
  { rewrite !Forall_app. split_and!;
      [apply plain_logs|apply plain_step_actions|by constructor]. }
  rewrite Hw in Hst. rewrite Hr' in Hl. exists j. split_and!; [done..|].
  rewrite Hl. cbn [render]. rewrite app_nil_r.
  by rewrite !agent_msgs_app, agent_msgs_logs, agent_msgs_step_actions.
Qed.

(** ** Telling log lines apart *)



(** ** A step that fails *)



Lemma all_steps_succeed_witness :
  ∃ j, objects (run ([] ++ CreateJob "1b9d6bcd-bbfd-4b2d-9b5d-ab8dfbbd4bed"
                                     "11:59:59" obliging "demo"
                                     ["open page"; "click button"]
                     :: [RunTask 0; ListJobs; RunTask 0; RunTask 0])
                    new_manager) !! 0 = Some j
       ∧ status j = "COMPLETED"
       ∧ logs j = ["[12:00:00] Initializing Agent & Tools...";
                   "[12:00:00] Agent Setup Complete.";
                   "[12:00:00] Starting execution of 2 steps.";
                   "[12:00:00] Step 1: open page";
                   "[12:00:00] Result: done";
                   "[12:00:00] Step 2: click button";
                   "[12:00:00] Result: done";
                   "[12:00:00] ✅ Workflow completed successfully."].
Proof.
  apply (all_steps_succeed [] "1b9d6bcd-bbfd-4b2d-9b5d-ab8dfbbd4bed" "11:59:59"
           obliging "demo" ["open page"; "click button"] ["done"; "done"]
           [RunTask 0; ListJobs; RunTask 0; RunTask 0]).
  - reflexivity.
  - simpl. auto.
  - repeat constructor.
  - vm_compute. lia.
Defined.


(** ** What the log says about the status *)


(** The log of a Job is a run of lines written by [WebAgent.log], followed
    by the line of the handler that ended the Job if one did. *)
Lemma job_report evs a j :
  objects (run evs new_manager) !! a = Some j →
  ∃ t msgs lines,
    task j = Some t
    ∧ logs j = stamped (world t) 0 msgs ++ lines
    ∧ ((lines = [] ∧ (status j = "PENDING" ∨ status j = "RUNNING"
                      ∨ status j = "COMPLETED"))
       ∨ (∃ msg, lines = ["💥 Critical Failure: " +:+ msg]
                 ∧ status j = "FAILED")
       ∨ (lines = ["⚠️ Job was cancelled by user."]
          ∧ status j = "CANCELLED")).
Proof.
  intros Hj. pose proof (hist_ok_reachable evs a) as H. rewrite Hj in H.
  destruct H as (t & Ht & Hs & Hl & Hp). unfold status_writes in Hs.
  exists t. destruct (coro t); simpl in Hp.
  - rewrite Hp in *. exists [], []. split_and!; [done..|]. left. auto.
  - destruct Hp as (p & Hacts & Hp). rewrite Hacts in *.
    destruct (finished_run (world t) p [] Hp) as [Hw Hr].
    rewrite app_nil_r in Hw, Hr. rewrite Hw in Hs. rewrite Hr in Hl.
    exists (agent_msgs p), []. split_and!; [done..|]. left. auto.
  - destruct Hp as (p & tail & Hacts & Hp & Hc). rewrite Hacts in *.
    destruct (finished_run (world t) p tail Hp) as [Hw Hr].
    rewrite Hw in Hs. rewrite Hr in Hl. exists (agent_msgs p).
    destruct Hc as [->|[->|[msg ->]]]; simpl in Hs, Hl.
    + exists []. split_and!; [done..|]. left. auto.
    + eexists. split_and!; [done..|]. right; right. eauto.
    + eexists. split_and!; [done..|]. right; left. eauto.
  - rewrite Hp in *. exists [], []. split_and!; [done..|]. left. auto.
  - destruct Hp as [(p & Hacts & Hp) _]. rewrite Hacts in *.
    destruct (finished_run (world t) p [] Hp) as [Hw Hr].
    rewrite app_nil_r in Hw, Hr. rewrite Hw in Hs. rewrite Hr in Hl.
    exists (agent_msgs p), []. split_and!; [done..|]. left. auto.
Qed.

(** ** Setup that fails *)

Lemma failing_setup_job evs0 uuid4 now ex nm steps msg evs :
  let m0 := run evs0 new_manager in
  let a := length (objects m0) in
  let job_id := Strings.String.substring 0 8 uuid4 in
  let create := CreateJob uuid4 now ex nm steps in
  setup_tools ex = Some (Exception msg) →
  Forall (λ e, is_cancel job_id e = false) evs →
  0 < slices a evs →
  ∃ j, objects (run (evs0 ++ create :: evs) new_manager) !! a = Some j
       ∧ status j = "FAILED"
       ∧ logs j = [formatted_msg (clock ex 0) "Initializing Agent & Tools...";
                   "💥 Critical Failure: " +:+ msg]
       ∧ awaits (actions_at a (history (evs0 ++ create :: evs) new_manager))
         = [].
Proof.
  cbv zeta. intros Hs Hcan Hn.
  destruct (job_after evs0 uuid4 now ex nm steps evs Hcan)
    as [(j & t & Hj & _ & _ & Hst & Hl) Hacts].
  rewrite (uncancelled_setup_fails ex steps _ _ Hs Hn) in Hst, Hl, Hacts.
  exists j. by rewrite Hacts.
Qed.

Lemma split_in_tail {A} (q tail pre post : list A) x :
  q ++ tail = pre ++ x :: post → x ∉ q →
  ∃ pre', pre = q ++ pre' ∧ tail = pre' ++ x :: post.
Proof.
  revert pre. induction q as [|y q IH]; intros pre Heq Hx; simpl in *.
  - by exists pre.
  - apply not_elem_of_cons in Hx as [Hxy Hx].
    destruct pre as [|z pre]; simplify_eq/=.
    destruct (IH pre H0 Hx) as (pre' & -> & ->). by exists pre'.
Qed.

Lemma plain_no_status p s : Forall plain p → SetStatus s ∉ p.
Proof.
  intros Hp Hin. rewrite Forall_forall in Hp. by apply Hp in Hin.
Qed.

(** The status writes FAILED and CANCELLED in the actions of a Job: each
    is followed by the log line of its handler and by nothing else. *)
Lemma report_after_status evs a pre s post :
  actions_at a (history evs new_manager) = pre ++ SetStatus s :: post →
  (s = "FAILED" → ∃ msg, post = [JobLog ("💥 Critical Failure: " +:+ msg)])
  ∧ (s = "CANCELLED" → post = [JobLog "⚠️ Job was cancelled by user."]).
Proof.
  intros Hacts. pose proof (hist_ok_reachable evs a) as H.
  assert (s = "FAILED" ∨ s = "CANCELLED" →
          ∃ p tail, actions_at a (history evs new_manager)
                    = (SetStatus "RUNNING" :: p) ++ tail
                    ∧ Forall plain p ∧ closing tail Returned) as Hshape.
  { intros Hs. destruct (objects (run evs new_manager) !! a) as [j|].
    - destruct H as (t & _ & _ & _ & Hp). destruct (coro t); simpl in Hp.
      + rewrite Hp in Hacts. by destruct pre.
      + destruct Hp as (p & Hp & Hplain). rewrite Hp in Hacts.
        assert (SetStatus s ∈ SetStatus "RUNNING" :: p) as Hin
          by (rewrite Hacts; apply elem_of_app; right; left).
        apply elem_of_cons in Hin as [[= ->]|Hin].
        * by destruct Hs.
        * by apply plain_no_status in Hin.
      + done.
      + rewrite Hp in Hacts. by destruct pre.
      + destruct Hp as [(p & Hp & Hplain) _]. rewrite Hp in Hacts.
        assert (SetStatus s ∈ SetStatus "RUNNING" :: p) as Hin
          by (rewrite Hacts; apply elem_of_app; right; left).
        apply elem_of_cons in Hin as [[= ->]|Hin].
        * by destruct Hs.
        * by apply plain_no_status in Hin.
    - rewrite H in Hacts. by destruct pre. }
  assert (∀ p tail, actions_at a (history evs new_manager)
                    = (SetStatus "RUNNING" :: p) ++ tail →
                    Forall plain p → s ≠ "RUNNING" →
                    ∃ pre', tail = pre' ++ SetStatus s :: post) as Htail.
  { intros p tail Heq Hp Hs. rewrite Hacts in Heq. symmetry in Heq.
    destruct (split_in_tail _ _ _ _ _ Heq) as (pre' & _ & ->); [|by eauto].
    apply not_elem_of_cons. split; [congruence|by apply plain_no_status]. }
  split; intros ->.
  - destruct Hshape as (p & tail & Heq & Hp & Hc); [by left|].
    destruct (Htail p tail Heq Hp) as (pre' & ->); [done|].
    destruct Hc as [Hc|[Hc|[msg Hc]]];
      destruct pre' as [|? [|? [|? ?]]]; simplify_eq/=. by exists msg.
  - destruct Hshape as (p & tail & Heq & Hp & Hc); [by right|].
    destruct (Htail p tail Heq Hp) as (pre' & ->); [done|].
    destruct Hc as [Hc|[Hc|[msg Hc]]];
      destruct pre' as [|? [|? [|? ?]]]; simplify_eq/=. done.
Qed.

(** C8 (as amended). The handlers write the terminal status first and
    append their log line directly after it, in the same slice of the
    task: in the actions of any Job a write of FAILED is followed by the
    append of a "Critical Failure" line and nothing else, a write of
    CANCELLED by the append of the cancellation notice and nothing else;
    and whenever other code of the process can look at a Job, a Job with
    status FAILED has a "Critical Failure" line as the last line of its
    log and a Job with status CANCELLED has the cancellation notice
    there. *)
Theorem report_follows_terminal_status (evs : list event) (a : nat) :
  (∀ pre s post,
     actions_at a (history evs new_manager) = pre ++ SetStatus s :: post →
     (s = "FAILED" →
      ∃ msg, post = [JobLog ("💥 Critical Failure: " +:+ msg)])
     ∧ (s = "CANCELLED" → post = [JobLog "⚠️ Job was cancelled by user."]))
  ∧ (∀ j, objects (run evs new_manager) !! a = Some j →
          (status j = "FAILED" →
           ∃ msg, last (logs j) = Some ("💥 Critical Failure: " +:+ msg))
          ∧ (status j = "CANCELLED" →
             last (logs j) = Some "⚠️ Job was cancelled by user.")).
Proof.
  split; [apply report_after_status|].
  intros j Hj.
  destruct (job_report evs a j Hj) as (t & msgs & lines & _ & Hl & Hcase).
  rewrite Hl.
  destruct Hcase as [[-> [Hs|[Hs|Hs]]]|[(msg & -> & Hs)|[-> Hs]]];
    rewrite Hs; split; intros [=]; rewrite last_snoc; eauto.
Qed.

(** C8 as stated fails: when setup fails, FAILED is written while the log
    holds only the line "Initializing Agent & Tools...", and the "Critical
    Failure" line is appended after that write; in the same way CANCELLED
    is written before the cancellation notice is appended. *)
Lemma status_written_before_report :
  let acts := (_run_job broken ["a"]).1 in
  let j := perform_all broken (mkJob "1b9d6bcd" "demo" "PENDING" [] None
                                     "11:59:59") (take 3 acts) in
  acts = [SetStatus "RUNNING"; AgentLog "Initializing Agent & Tools...";
          SetStatus "FAILED"; JobLog "💥 Critical Failure: npx not found"]
  ∧ status j = "FAILED"
  ∧ logs j = ["[12:00:00] Initializing Agent & Tools..."]
  ∧ (task_step obliging true
               (InStep 1 "a" [] (Return "done") (Raise CancelledError))).1
    = [SetStatus "CANCELLED"; JobLog "⚠️ Job was cancelled by user."].
Proof. done. Qed.

Lemma report_follows_terminal_status_witness :
  ∃ msg, [JobLog "💥 Critical Failure: npx not found"]
         = [JobLog ("💥 Critical Failure: " +:+ msg)].
Proof.
  apply (proj1 (report_follows_terminal_status
                  [CreateJob "1b9d6bcd-bbfd-4b2d-9b5d-ab8dfbbd4bed" "11:59:59"
                             broken "demo" ["a"]; RunTask 0] 0)
               [SetStatus "RUNNING"; AgentLog "Initializing Agent & Tools..."]
               "FAILED" [JobLog "💥 Critical Failure: npx not found"]);
    reflexivity.
Defined.




(** ** Exceptions at the boundary of the runner *)







(** ** Cancelling before the first slice *)

Lemma stuck_step ran a m e j :
  objects m !! a = Some j → stuck ran j →
  ∃ j', objects (step m e) !! a = Some j'
        ∧ stuck (ran || is_run a e) j'.
Proof.
  intros Ha (Hs & Hl & t & Ht & Hc).
  destruct e as [uuid4 now ex nm steps|k| |k|b]; simpl;
    rewrite ?orb_false_r.
  - exists j. split; [by apply lookup_app_l_Some|by repeat split; eauto].
  - exists j. by repeat split; eauto.
  - exists j. by repeat split; eauto.
  - unfold cancel_job.
    destruct (dict_get k (jobs m)) as [b|]; [|by exists j; repeat split; eauto].
    destruct (objects m !! b) as [jb|] eqn:Hb;
      [|by exists j; repeat split; eauto].
    destruct (task jb) as [tb|] eqn:Htb; [|by exists j; repeat split; eauto].
    destruct (done tb) eqn:Hd; [by exists j; repeat split; eauto|]. simpl.
    destruct (decide (a = b)) as [->|Hne].
    + rewrite list_lookup_insert_eq by (by eapply lookup_lt_Some).
      assert (jb = j) as -> by congruence.
      assert (tb = t) as -> by congruence.
      eexists; split; [done|]. repeat split; [done..|].
      eexists; split; [done|]. unfold cancel. rewrite Hd. simpl.
      destruct ran.
      * unfold done in Hd. by rewrite Hc in Hd.
      * destruct Hc as (steps & -> & _). eauto.
    + rewrite list_lookup_insert_ne by done.
      exists j. by repeat split; eauto.
  - unfold run_task. destruct (decide (b = a)) as [->|Hne].
    + rewrite bool_decide_eq_true_2, orb_true_r by done. rewrite Ha. simpl.
      rewrite list_lookup_insert_eq by (by eapply lookup_lt_Some).
      eexists; split; [done|]. unfold step_job. rewrite Ht.
      destruct ran.
      * unfold done. rewrite Hc. simpl. repeat split; eauto.
      * destruct Hc as (steps & Hc & Hm). unfold done. rewrite Hc, Hm. simpl.
        repeat split; eauto.
    + rewrite bool_decide_eq_false_2, orb_false_r by done.
      exists j. split; [|by repeat split; eauto].
      destruct (objects m !! b); [|done]. simpl.
      by rewrite list_lookup_insert_ne.
Qed.

Lemma stuck_run a evs : ∀ ran m j,
  objects m !! a = Some j → stuck ran j →
  ∃ j', objects (run evs m) !! a = Some j'
        ∧ stuck (ran || bool_decide (0 < slices a evs)) j'.
Proof.
  induction evs as [|e evs IH]; intros ran m j Ha Hj.
  - exists j. by rewrite orb_false_r.
  - destruct (stuck_step ran a m e j Ha Hj) as (j1 & Ha1 & Hj1).
    destruct (IH _ _ j1 Ha1 Hj1) as (j2 & Ha2 & Hj2).
    exists j2. split; [done|]. rewrite slices_cons.
    by destruct ran, (is_run a e).
Qed.

Lemma cancel_job_found k m a j t :
  dict_get k (jobs m) = Some a → objects m !! a = Some j → task j = Some t →
  cancel_job k m
  = if done t then (false, m)
    else (true,
          mkJobManager
            (<[a := set_task (Some (mkTask (coro t) true (world t))) j]>
               (objects m))
            (jobs m)).
Proof.
  intros Hk Ha Ht. unfold cancel_job, cancel. rewrite Hk, Ha, Ht.
  by destruct (done t).
Qed.

(** The JobManager right after [create_job] and a [cancel_job] for the id
    it returned. *)
Lemma cancel_new_job evs0 uuid4 now ex nm steps :
  let m0 := run evs0 new_manager in
  let a := length (objects m0) in
  let job_id := Strings.String.substring 0 8 uuid4 in
  let m1 := (create_job uuid4 now ex nm steps m0).2 in
  (cancel_job job_id m1).1 = true
  ∧ jobs (cancel_job job_id m1).2 = dict_set job_id a (jobs m0)
  ∧ ∃ j, objects (cancel_job job_id m1).2 !! a = Some j
         ∧ id j = job_id ∧ stuck false j.
Proof.
  intros m0 a job_id m1.
  pose proof (create_job_object uuid4 now ex nm steps m0) as Hobj.
  fold m1 a job_id in Hobj.
  rewrite (cancel_job_found job_id m1 a _ _ (dict_get_set_eq _ _ _) Hobj eq_refl).
  simpl. split_and!; [done..|].
  rewrite list_lookup_insert_eq by (by eapply lookup_lt_Some).
  eexists; split_and!; [done..|]. repeat split. eauto.
Qed.

(** C7, at the failing input: a Job cancelled right after [create_job],
    before the event loop has given its task a slice, is accepted for
    cancellation but keeps status PENDING and an empty log whatever
    happens afterwards: the body of [_run_job] is never entered, so the
    handler that would write CANCELLED does not run.  A Job cancelled
    while it waits inside a step that lets the cancellation through does
    end CANCELLED. *)
Theorem cancelled_before_start_stays_pending evs0 uuid4 now ex nm steps evs :
  let m0 := run evs0 new_manager in
  let a := length (objects m0) in
  let job_id := Strings.String.substring 0 8 uuid4 in
  let create := CreateJob uuid4 now ex nm steps in
  (cancel_job job_id (run (evs0 ++ [create]) new_manager)).1 = true
  ∧ (∃ j, objects (run (evs0 ++ create :: CancelJob job_id :: evs)
                       new_manager) !! a = Some j
          ∧ status j = "PENDING" ∧ logs j = [])
  ∧ ∀ i step rest o,
      task_step ex true (InStep i step rest o (Raise CancelledError))
      = ([SetStatus "CANCELLED"; JobLog "⚠️ Job was cancelled by user."],
         Returned).
Proof.
  intros m0 a job_id create.
  destruct (cancel_new_job evs0 uuid4 now ex nm steps)
    as (Hret & _ & j & Hj & _ & Hstuck).
  split_and!.
  - by rewrite run_app.
  - rewrite run_app. cbn [run foldl step]. fold (run evs).
    destruct (stuck_run a evs false _ j Hj Hstuck) as (j' & Hj' & Hs & Hl & _).
    by exists j'.
  - done.
Qed.

(** C4, at the failing input: once the task of a Job that was cancelled
    before its first slice has had a slice, [cancel_job] returns false for
    the id of that Job although the Job is registered and its status is
    PENDING, which is not a terminal status. *)
Theorem cancel_job_false_while_pending evs0 uuid4 now ex nm steps :
  let m0 := run evs0 new_manager in
  let a := length (objects m0) in
  let job_id := Strings.String.substring 0 8 uuid4 in
  let create := CreateJob uuid4 now ex nm steps in
  let m := run (evs0 ++ [create; CancelJob job_id; RunTask a]) new_manager in
  cancel_job job_id m = (false, m)
  ∧ ∃ j, get_job job_id m = Some j
         ∧ status j = "PENDING" ∧ terminal (status j) = false.
Proof.
  intros m0 a job_id create m.
  destruct (cancel_new_job evs0 uuid4 now ex nm steps)
    as (_ & Hjobs & j & Hj & _ & Hstuck).
  fold m0 a job_id in Hjobs, Hj.
  set (m2 := (cancel_job job_id (create_job uuid4 now ex nm steps m0).2).2) in *.
  assert (m = step m2 (RunTask a)) as Hm by (unfold m; by rewrite run_app).
  destruct (stuck_step false a m2 (RunTask a) j Hj Hstuck)
    as (j' & Hj' & Hs & Hl & t & Ht & Hc).
  rewrite <-Hm in Hj'. simpl in Hc. rewrite bool_decide_eq_true_2 in Hc by done.
  assert (dict_get job_id (jobs m) = Some a) as Hk.
  { rewrite Hm. cbn [step]. unfold run_task. rewrite Hj. cbn [snd jobs].
    rewrite Hjobs. apply dict_get_set_eq. }
  split.
  - rewrite (cancel_job_found job_id m a j' t Hk Hj' Ht). unfold done.
    by rewrite Hc.
  - exists j'. unfold get_job. rewrite Hk. simpl. by rewrite Hj', Hs.
Qed.

(** ** The registry *)

Lemma jobs_step m e :
  jobs (step m e)
  = match e with
    | CreateJob uuid4 _ _ _ _ =>
        dict_set (Strings.String.substring 0 8 uuid4) (length (objects m))
                 (jobs m)
    | _ => jobs m
    end.
Proof.
  destruct e as [uuid4 now ex nm steps|k| |k|b]; simpl; try done.
  - unfold cancel_job. destruct (dict_get k (jobs m)) as [a|]; [|done].
    destruct (objects m !! a) as [j|]; [|done].
    destruct (task j) as [t|]; [|done]. by destruct (done t).
  - unfold run_task. by destruct (objects m !! b).
Qed.

Lemma dict_set_keys {V} k (v : V) d :
  (dict_set k v d).*1 = if decide (k ∈ d.*1) then d.*1 else d.*1 ++ [k].
Proof.
  induction d as [|[k0 v0] d IH]; [done|].
  cbn [dict_set]. destruct (decide (k0 = k)) as [->|Hne]; rewrite !fmap_cons.
  - cbn [fst]. rewrite decide_True; [done|]. by left.
  - cbn [fst]. rewrite IH. destruct (decide (k ∈ d.*1)) as [Hin|Hin].
    + rewrite decide_True; [done|]. by right.
    + rewrite decide_False; [done|].
      intros [?|?]%elem_of_cons; by simplify_eq.
Qed.

Lemma keys_step m e : (jobs m).*1 `prefix_of` (jobs (step m e)).*1.
Proof.
  rewrite jobs_step. destruct e; try done. rewrite dict_set_keys.
  destruct (decide _); [done|]. by apply prefix_app_r.
Qed.

Lemma keys_run evs : ∀ m, (jobs m).*1 `prefix_of` (jobs (run evs m)).*1.
Proof.
  induction evs as [|e evs IH]; intros m; [done|].
  etrans; [apply (keys_step m e)|apply IH].
Qed.

Lemma dict_get_fresh {V} k (d : list (string * V)) :
  k ∉ d.*1 → dict_get k d = None.
Proof.
  intros Hk. apply eq_None_not_Some. by rewrite dict_get_is_Some.
Qed.

Lemma dict_set_app_r {V} k (v : V) d l :
  k ∉ d.*1 → dict_set k v (d ++ l) = d ++ dict_set k v l.
Proof.
  induction d as [|[k0 v0] d IH]; [done|]. rewrite fmap_cons. cbn [fst].
  intros [Hne Hk]%not_elem_of_cons. cbn [app dict_set].
  rewrite decide_False by done. by rewrite IH.
Qed.

Lemma dict_set_other {V} k k' (v : V) d :
  k' ≠ k → dict_get k' (dict_set k v d) = dict_get k' d.
Proof.
  intros Hne. induction d as [|[k0 v0] d IH]; simpl.
  - by rewrite decide_False.
  - destruct (decide (k0 = k)) as [->|Hk0]; simpl.
    + by rewrite !decide_False by done.
    + by rewrite IH.
Qed.

(** Entries of the dictionary whose ids are not drawn again stay where
    they are. *)
Lemma entries_run evs : ∀ m d,
  d `prefix_of` jobs m →
  Forall (λ k, k ∉ d.*1) (drawn evs) →
  d `prefix_of` jobs (run evs m).
Proof.
  induction evs as [|e evs IH]; intros m d Hd Hfresh; [done|].
  cbn [run foldl]. apply IH.
  - rewrite jobs_step. destruct e as [uuid4 now ex nm steps|k| |k|b];
      try done.
    apply Forall_cons in Hfresh as [Hk _]. destruct Hd as [l ->].
    rewrite dict_set_app_r by done. by apply prefix_app_r.
  - destruct e; try done. by apply Forall_cons in Hfresh as [_ ?].
Qed.

(** C10 (as amended). [get_job] and [list_jobs] change nothing; the
    dictionary of the JobManager is changed by [create_job] alone, neither
    by [cancel_job] nor by a slice of a task; [create_job] assigns the new
    Job to the id it has drawn and touches no other id: for an id that is
    not registered this appends an entry, for a registered id it replaces
    the Job of the entry.  No event ever removes an id: the ids registered
    before a run of events are registered after it, in the same order;
    and the entries whose ids are not drawn again in the run are the same
    after it, id and Job.  [get_job] for an id that is not registered
    returns [None]. *)
Theorem registry_changes_by_create_only (m : JobManager) :
  (∀ job_id, step m (GetJob job_id) = m)
  ∧ step m ListJobs = m
  ∧ (∀ job_id, jobs (cancel_job job_id m).2 = jobs m)
  ∧ (∀ a, jobs (run_task a m).2 = jobs m)
  ∧ (∀ uuid4 now ex nm steps,
       let r := create_job uuid4 now ex nm steps m in
       (r.1 ∉ (jobs m).*1 →
        jobs r.2 = jobs m ++ [(r.1, length (objects m))])
       ∧ (r.1 ∈ (jobs m).*1 → (jobs r.2).*1 = (jobs m).*1)
       ∧ dict_get r.1 (jobs r.2) = Some (length (objects m))
       ∧ objects r.2 !! length (objects m)
         = Some (mkJob r.1 nm "PENDING" []
                       (Some (mkTask (Created steps) false ex)) now)
       ∧ ∀ k, k ≠ r.1 → dict_get k (jobs r.2) = dict_get k (jobs m))
  ∧ (∀ evs, (jobs m).*1 `prefix_of` (jobs (run evs m)).*1)
  ∧ (∀ evs d, d `prefix_of` jobs m →
              Forall (λ k, k ∉ d.*1) (drawn evs) →
              d `prefix_of` jobs (run evs m))
  ∧ (∀ job_id, job_id ∉ (jobs m).*1 → get_job job_id m = None).
Proof.
  split_and!; [done|done| | | |intros; apply keys_run| |].
  - intros k. apply (jobs_step m (CancelJob k)).
  - intros a. apply (jobs_step m (RunTask a)).
  - intros uuid4 now ex nm steps r. cbn [r create_job fst snd jobs objects].
    split_and!.
    + intros Hk. by apply dict_set_fresh, dict_get_fresh.
    + intros Hk. by rewrite dict_set_keys, decide_True.
    + apply dict_get_set_eq.
    + by rewrite list_lookup_middle.
    + intros k Hk. by apply dict_set_other.
  - intros evs d. apply entries_run.
  - intros k Hk. unfold get_job. by rewrite dict_get_fresh.
Qed.

(** C10 as stated fails: a [create_job] that draws a registered id inserts
    no entry; it replaces the Job of the entry, and the Job registered
    under the id before is in the registry no more. *)
Lemma create_job_drops_registered_job :
  let m1 := run [CreateJob "1b9d6bcd-bbfd-4b2d-9b5d-ab8dfbbd4bed" "11:59:58"
                           obliging "A" ["a"]] new_manager in
  let m2 := step m1 (CreateJob "1b9d6bcd-0e1f-4a2b-8c3d-4e5f6a7b8c9d"
                               "11:59:59" obliging "B" ["b"]) in
  ∃ job, get_job "1b9d6bcd" m1 = Some job
         ∧ job ∈ list_jobs m1
         ∧ (job ∉ list_jobs m2)
         ∧ get_job "1b9d6bcd" m2 ≠ Some job
         ∧ length (jobs m2) = length (jobs m1).
Proof.
  eexists. split; [vm_compute; reflexivity|]. split_and!.
  - vm_compute. left.
  - vm_compute. intros H%list_elem_of_singleton.
    by apply (f_equal name) in H.
  - vm_compute. intros [= H].
  - reflexivity.
Qed.

Lemma registry_changes_by_create_only_witness :
  let m := run [CreateJob "1b9d6bcd-bbfd-4b2d-9b5d-ab8dfbbd4bed" "11:59:58"
                          obliging "A" ["a"]] new_manager in
  jobs m
  `prefix_of`
  jobs (run [CreateJob "6fa459ea-ee8a-3ca4-894e-db77e160355e" "11:59:59"
                       obliging "B" ["b"];
             RunTask 0; CancelJob "1b9d6bcd"; RunTask 1] m).
Proof.
  intros m.
  apply (proj1 (proj2 (proj2 (proj2 (proj2 (proj2 (proj2
           (registry_changes_by_create_only m)))))))).
  - done.
  - repeat constructor. vm_compute. intros H%list_elem_of_singleton.
    discriminate H.
Defined.

(** ** Ids drawn by create_job *)

Lemma drawn_app evs evs' : drawn (evs ++ evs') = drawn evs ++ drawn evs'.
Proof. apply omap_app. Qed.

Lemma ids_step m e :
  id <$> objects (step m e)
  = (id <$> objects m)
    ++ match e with
       | CreateJob uuid4 _ _ _ _ => [Strings.String.substring 0 8 uuid4]
       | _ => []
       end.
Proof.
  destruct e as [uuid4 now ex nm steps|k| |k|b]; simpl;
    rewrite ?app_nil_r; try done.
  - by rewrite fmap_app.
  - unfold cancel_job. destruct (dict_get k (jobs m)) as [a|]; [|done].
    destruct (objects m !! a) as [j|] eqn:Ha; [|done].
    destruct (task j) as [t|]; [|done]. destruct (done t); [done|]. simpl.
    rewrite list_fmap_insert. apply list_insert_id.
    by rewrite list_lookup_fmap, Ha.
  - unfold run_task. destruct (objects m !! b) as [j|] eqn:Hb; [|done]. simpl.
    rewrite list_fmap_insert. apply list_insert_id.
    rewrite list_lookup_fmap, Hb. simpl.
    by destruct (step_job_frame j) as (-> & _).
Qed.

Lemma objects_ids evs : id <$> objects (run evs new_manager) = drawn evs.
Proof.
  induction evs as [|e evs IH] using rev_ind; [done|].
  rewrite run_app, drawn_app. cbn [run foldl]. rewrite ids_step, IH.
  by destruct e.
Qed.

Lemma jobs_distinct evs :
  NoDup (drawn evs) →
  jobs (run evs new_manager) = zip (drawn evs) (seq 0 (length (drawn evs))).
Proof.
  induction evs as [|e evs IH] using rev_ind; [done|].
  rewrite run_app, drawn_app. cbn [run foldl]. rewrite jobs_step.
  intros [Hnd [Hdisj _]]%NoDup_app.
  destruct e as [uuid4 now ex nm steps|k| |k|b]; simpl in *;
    rewrite ?app_nil_r; auto.
  set (k := Strings.String.substring 0 8 uuid4) in *.
  assert (length (objects (run evs new_manager)) = length (drawn evs)) as ->
    by (by rewrite <-objects_ids, length_fmap).
  rewrite IH by done. rewrite dict_set_fresh.
  - rewrite length_app. simpl. rewrite Nat.add_1_r, seq_S.
    by rewrite zip_with_app by (by rewrite length_seq).
  - apply dict_get_fresh. rewrite fst_zip by (by rewrite length_seq).
    intros Hin. apply (Hdisj k Hin). by left.
Qed.

Lemma omap_lookup_zip {A V} (l : list A) : ∀ (ks : list V) l0,
  length ks = length l →
  omap (λ kv, (l0 ++ l) !! kv.2) (zip ks (seq (length l0) (length ks))) = l.
Proof.
  induction l as [|x l IH]; intros [|k ks] l0; simpl; try done.
  intros [= Hlen]. rewrite list_lookup_middle by done. simpl. f_equal.
  specialize (IH ks (l0 ++ [x]) Hlen).
  rewrite length_app, <-app_assoc in IH. simpl in IH.
  by rewrite Nat.add_1_r in IH.
Qed.

Lemma dict_get_zip (ks : list string) : ∀ i a k,
  NoDup ks → ks !! a = Some k →
  dict_get k (zip ks (seq i (length ks))) = Some (i + a).
Proof.
  induction ks as [|k0 ks IH]; intros i a k Hnd Ha; [done|].
  apply NoDup_cons in Hnd as [Hk0 Hnd]. simpl.
  destruct a as [|a]; simpl in Ha.
  - simplify_eq. by rewrite decide_True, Nat.add_0_r.
  - rewrite decide_False.
    + rewrite (IH (S i) a k Hnd Ha). f_equal. lia.
    + intros ->. apply Hk0. by eapply list_elem_of_lookup_2.
Qed.

(** C6 (as amended). When the ids drawn by the calls of [create_job] are
    pairwise distinct, the dictionary holds exactly these ids, in the
    order of the calls; [list_jobs] returns every Job created, once each;
    their ids are the ids drawn; [get_job] with the id of a Job returns
    that Job; and every call of [create_job] finds its id unregistered, so
    no call replaces an entry. *)
Theorem distinct_ids_registry (evs : list event) :
  NoDup (drawn evs) →
  let m := run evs new_manager in
  (jobs m).*1 = drawn evs
  ∧ list_jobs m = objects m
  ∧ id <$> list_jobs m = drawn evs
  ∧ (∀ a j, objects m !! a = Some j → get_job (id j) m = Some j)
  ∧ (∀ evs1 uuid4 now ex nm steps evs2,
       evs = evs1 ++ CreateJob uuid4 now ex nm steps :: evs2 →
       dict_get (Strings.String.substring 0 8 uuid4)
                (jobs (run evs1 new_manager)) = None).
Proof.
  intros Hnd. cbv zeta.
  assert (length (drawn evs) = length (objects (run evs new_manager))) as Hlen
    by (by rewrite <-objects_ids, length_fmap).
  assert (list_jobs (run evs new_manager) = objects (run evs new_manager))
    as Hlist.
  { unfold list_jobs. rewrite (jobs_distinct evs Hnd).
    by apply (omap_lookup_zip _ (drawn evs) []). }
  split_and!.
  - rewrite (jobs_distinct evs Hnd). apply fst_zip. by rewrite length_seq.
  - done.
  - rewrite Hlist. apply objects_ids.
  - intros a j Hj. unfold get_job. rewrite (jobs_distinct evs Hnd).
    rewrite (dict_get_zip (drawn evs) 0 a (id j) Hnd); [done|].
    by rewrite <-objects_ids, list_lookup_fmap, Hj.
  - intros evs1 uuid4 now ex nm steps evs2 ->.
    rewrite drawn_app in Hnd. apply NoDup_app in Hnd as (Hnd1 & Hdisj & _).
    rewrite (jobs_distinct evs1 Hnd1). apply dict_get_fresh.
    rewrite fst_zip by (by rewrite length_seq).
    intros Hin. apply (Hdisj _ Hin). simpl. by left.
Qed.

(** C6 as stated fails: two UUIDs that agree in their first eight
    characters give both Jobs the same id; the second [create_job] replaces
    the entry of the first, and [list_jobs] returns one Job of the two. *)
Lemma create_job_replaces_entry :
  let r1 := create_job "1b9d6bcd-bbfd-4b2d-9b5d-ab8dfbbd4bed" "11:59:58"
                       obliging "A" ["a"] new_manager in
  let r2 := create_job "1b9d6bcd-0e1f-4a2b-8c3d-4e5f6a7b8c9d" "11:59:59"
                       obliging "B" ["b"] r1.2 in
  r1.1 = "1b9d6bcd" ∧ r2.1 = "1b9d6bcd"
  ∧ name <$> get_job "1b9d6bcd" r1.2 = Some "A"
  ∧ name <$> get_job "1b9d6bcd" r2.2 = Some "B"
  ∧ name <$> objects r2.2 = ["A"; "B"]
  ∧ name <$> list_jobs r2.2 = ["B"].
Proof. split_and!; vm_compute; reflexivity. Qed.

Lemma distinct_ids_registry_witness :
  let m := run [CreateJob "1b9d6bcd-bbfd-4b2d-9b5d-ab8dfbbd4bed" "11:59:58"
                          obliging "A" ["a"];
                RunTask 0;
                CreateJob "7c9e6679-7425-40de-944b-e07fc1f90ae7" "11:59:59"
                          obliging "B" ["b"]] new_manager in
  (jobs m).*1 = ["1b9d6bcd"; "7c9e6679"] ∧ list_jobs m = objects m.
Proof.
  pose proof (distinct_ids_registry
    [CreateJob "1b9d6bcd-bbfd-4b2d-9b5d-ab8dfbbd4bed" "11:59:58"
               obliging "A" ["a"];
     RunTask 0;
     CreateJob "7c9e6679-7425-40de-944b-e07fc1f90ae7" "11:59:59"
               obliging "B" ["b"]]) as H.
  destruct H as (H1 & H2 & _).
  - vm_compute. repeat constructor; intros H; inversion H; subst;
      match goal with H' : _ ∈ _ |- _ => inversion H' end.
  - split; [exact H1|exact H2].
Defined.

(** ** Lines that name a step *)












(** ** cancel_job and the state of the task *)

(** In every state a JobManager can reach, a Job whose status is terminal
    has a task that is done. *)
Lemma terminal_done evs a j t :
  objects (run evs new_manager) !! a = Some j → task j = Some t →
  terminal (status j) = true → done t = true.
Proof.
  intros Hj Ht Hterm. pose proof (hist_ok_reachable evs a) as H.
  rewrite Hj in H. destruct H as (t' & Ht' & Hs & _ & Hp).
  assert (t' = t) as -> by congruence. unfold status_writes in Hs.
  unfold done. destruct (coro t); simpl in Hp; try done.
  - rewrite Hp in Hs. simpl in Hs. by rewrite Hs in Hterm.
  - destruct Hp as (p & Hp & Hplain). rewrite Hp in Hs. simpl in Hs.
    rewrite (plain_writes p Hplain) in Hs. simpl in Hs. by rewrite Hs in Hterm.
Qed.

(** [cancel_job] on a Job whose status is terminal returns false and
    changes nothing. *)
Lemma cancel_job_terminal evs k j :
  get_job k (run evs new_manager) = Some j →
  terminal (status j) = true →
  cancel_job k (run evs new_manager) = (false, run evs new_manager).
Proof.
  unfold get_job. intros Hget Hterm.
  destruct (dict_get k (jobs (run evs new_manager))) as [a|] eqn:Hk; [|done].
  simpl in Hget. pose proof (hist_ok_reachable evs a) as H.
  rewrite Hget in H. destruct H as (t & Ht & _).
  rewrite (cancel_job_found k _ a j t Hk Hget Ht).
  by rewrite (terminal_done evs a j t Hget Ht Hterm).
Qed.

(** [cancel_job] returns true exactly for the ids of registered Jobs whose
    task is not done. *)
Lemma cancel_job_true_iff evs k :
  (cancel_job k (run evs new_manager)).1 = true
  ↔ ∃ j t, get_job k (run evs new_manager) = Some j
           ∧ task j = Some t ∧ done t = false.
Proof.
  unfold get_job, cancel_job.
  destruct (dict_get k (jobs (run evs new_manager))) as [a|] eqn:Hk; simpl.
  - destruct (objects (run evs new_manager) !! a) as [j|] eqn:Hj.
    + destruct (task j) as [t|] eqn:Ht.
      * destruct (done t) eqn:Hd; simpl.
        -- split; [done|]. intros (j' & t' & [= <-] & Ht' & Hd'). congruence.
        -- split; [|done]. intros _. by exists j, t.
      * split; [done|]. intros (j' & t' & [= <-] & Ht' & _). congruence.
    + split; [done|]. by intros (j' & t' & ? & _).
  - split; [done|]. by intros (j' & t' & ? & _).
Qed.

(** * Further properties of the Job lifecycle *)

(** ** What never changes in a Job *)

Lemma step_job_grows j :
  logs j `prefix_of` logs (step_job j).2.
Proof.
  unfold step_job. destruct (task j) as [t|]; [|done].
  destruct (done t); [done|]. cbn [snd logs set_task].
  rewrite perform_all_logs. by apply prefix_app_r.
Qed.

Lemma step_keeps a m e j :
  objects m !! a = Some j →
  ∃ j', objects (step m e) !! a = Some j'
        ∧ logs j `prefix_of` logs j'
        ∧ id j' = id j ∧ name j' = name j ∧ created_at j' = created_at j.
Proof.
  intros Ha. destruct e as [uuid4 now ex nm steps|k| |k|b]; simpl.
  - exists j. split; [by apply lookup_app_l_Some|done].
  - by exists j.
  - by exists j.
  - unfold cancel_job.
    destruct (dict_get k (jobs m)) as [b|]; [|by exists j].
    destruct (objects m !! b) as [jb|] eqn:Hb; [|by exists j].
    destruct (task jb) as [tb|]; [|by exists j].
    destruct (done tb); [by exists j|]. simpl.
    destruct (decide (a = b)) as [->|Hne].
    + rewrite list_lookup_insert_eq by (by eapply lookup_lt_Some).
      assert (jb = j) as -> by congruence. by eexists.
    + rewrite list_lookup_insert_ne by done. by exists j.
  - unfold run_task. destruct (objects m !! b) as [jb|] eqn:Hb; [|by exists j].
    simpl. destruct (decide (a = b)) as [->|Hne].
    + rewrite list_lookup_insert_eq by (by eapply lookup_lt_Some).
      assert (jb = j) as -> by congruence.
      eexists; split; [done|]. split; [apply step_job_grows|].
      apply step_job_frame.
    + rewrite list_lookup_insert_ne by done. by exists j.
Qed.

(** X1. Whatever happens in the process, a Job object stays where it is,
    its log only grows at the end, and its id, name and creation time
    never change. *)
Theorem job_log_append_only (evs : list event) (m : JobManager) (a : nat) (j : Job) :
  objects m !! a = Some j →
  ∃ j', objects (run evs m) !! a = Some j'
        ∧ logs j `prefix_of` logs j'
        ∧ id j' = id j ∧ name j' = name j ∧ created_at j' = created_at j.
Proof.
  revert m j. induction evs as [|e evs IH]; intros m j Ha.
  - by exists j.
  - destruct (step_keeps a m e j Ha) as (j1 & Ha1 & Hl1 & Hi1 & Hn1 & Hc1).
    destruct (IH _ j1 Ha1) as (j2 & Ha2 & Hl2 & Hi2 & Hn2 & Hc2).
    exists j2. split; [done|]. split; [by etrans|]. split_and!; congruence.
Qed.

Lemma job_log_append_only_witness :
  ∃ j', objects (run [RunTask 0; CancelJob "1b9d6bcd"; RunTask 0]
                     (create_job "1b9d6bcd-bbfd-4b2d-9b5d-ab8dfbbd4bed"
                                 "11:59:59" obliging "demo" ["a"]
                                 new_manager).2) !! 0 = Some j'
        ∧ [] `prefix_of` logs j'
        ∧ id j' = "1b9d6bcd" ∧ name j' = "demo" ∧ created_at j' = "11:59:59".
Proof.
  apply (job_log_append_only
           [RunTask 0; CancelJob "1b9d6bcd"; RunTask 0]
           (create_job "1b9d6bcd-bbfd-4b2d-9b5d-ab8dfbbd4bed" "11:59:59"
                       obliging "demo" ["a"] new_manager).2 0
           (mkJob "1b9d6bcd" "demo" "PENDING" []
                  (Some (mkTask (Created ["a"]) false obliging)) "11:59:59")).
  reflexivity.
Defined.

(** ** cancel_job *)

(** What [cancel_job] does to the Job it finds: the request is recorded in
    the task, unless the task is done. *)
Lemma cancel_job_objects k m :
  objects (cancel_job k m).2
  = match dict_get k (jobs m) with
    | Some a =>
        alter (λ j, set_task ((λ t, (cancel t).2) <$> task j) j) a (objects m)
    | None => objects m
    end
  ∧ jobs (cancel_job k m).2 = jobs m.
Proof.
  unfold cancel_job. destruct (dict_get k (jobs m)) as [a|]; [|done].
  destruct (objects m !! a) as [j|] eqn:Ha.
  - destruct (task j) as [t|] eqn:Ht.
    + unfold cancel. destruct (done t) eqn:Hd; simpl.
      * split; [|done]. symmetry. apply list_eq. intros i.
        rewrite list_lookup_alter.
        destruct (decide (a = i)) as [<-|]; [|done].
        rewrite Ha. simpl. rewrite Ht. simpl. rewrite Hd. simpl.
        by rewrite set_task_task.
      * split; [|done]. apply list_eq. intros i.
        rewrite list_lookup_alter.
        destruct (decide (a = i)) as [<-|].
        -- rewrite list_lookup_insert_eq by (by eapply lookup_lt_Some).
           rewrite Ha. simpl. rewrite Ht. simpl. by rewrite Hd.
        -- by rewrite list_lookup_insert_ne.
    + split; [|done]. symmetry. apply list_eq. intros i.
      rewrite list_lookup_alter. destruct (decide (a = i)) as [<-|]; [|done].
      rewrite Ha. simpl. rewrite Ht. simpl. by destruct j; simpl in *; subst.
  - split; [|done]. symmetry. apply list_eq. intros i.
    rewrite list_lookup_alter. destruct (decide (a = i)) as [<-|]; [|done].
    by rewrite Ha.
Qed.

Lemma cancel_job_frame k m :
  (λ j, (id j, name j, status j, logs j, created_at j))
    <$> objects (cancel_job k m).2
  = (λ j, (id j, name j, status j, logs j, created_at j)) <$> objects m
  ∧ (λ j, coro <$> task j) <$> objects (cancel_job k m).2
    = (λ j, coro <$> task j) <$> objects m.
Proof.
  destruct (cancel_job_objects k m) as [Hobj Hjobs].
  rewrite Hobj. destruct (dict_get k (jobs m)) as [a|]; [|done].
  split; apply list_eq; intros i; rewrite !list_lookup_fmap, list_lookup_alter;
    (destruct (decide (a = i)) as [<-|]; [|done]);
    destruct (objects m !! a) as [j|]; simpl; try done.
  f_equal. destruct (task j) as [t|]; [|done]. simpl. unfold cancel.
  by destruct (done t).
Qed.


(** X3. Calling [cancel_job] twice with the same id is the same as calling
    it once: the second call returns what the first returned and changes
    nothing more. *)
Theorem cancel_job_twice (k : string) (m : JobManager) :
  cancel_job k (cancel_job k m).2 = cancel_job k m.
Proof.
  destruct (cancel_job k m) as [r m'] eqn:Hc. cbn [snd].
  unfold cancel_job in Hc.
  destruct (dict_get k (jobs m)) as [a|] eqn:Hk;
    [|injection Hc as <- <-; by unfold cancel_job; rewrite Hk].
  destruct (objects m !! a) as [j|] eqn:Ha;
    [|injection Hc as <- <-; by unfold cancel_job; rewrite Hk, Ha].
  destruct (task j) as [t|] eqn:Ht;
    [|injection Hc as <- <-; by unfold cancel_job; rewrite Hk, Ha, Ht].
  destruct (done t) eqn:Hd; injection Hc as <- <-.
  - unfold cancel_job. by rewrite Hk, Ha, Ht, Hd.
  - unfold cancel_job. cbn [jobs objects]. rewrite Hk.
    rewrite list_lookup_insert_eq by (by eapply lookup_lt_Some).
    cbn [task set_task]. unfold cancel. rewrite Hd. cbn [snd].
    unfold done in *. cbn [coro world]. rewrite Hd.
    by rewrite list_insert_insert_eq.
Qed.

(** The task of a Job with status RUNNING waits in a step, or an
    exception no handler matches has ended it. *)
Lemma running_task evs a j :
  objects (run evs new_manager) !! a = Some j →
  status j = "RUNNING" →
  ∃ t, task j = Some t
       ∧ ((∃ i text rest o c, coro t = InStep i text rest o c)
          ∨ ∃ msg, coro t = Raised (BaseException msg)).
Proof.
  intros Hj Hs. pose proof (hist_ok_reachable evs a) as H.
  rewrite Hj in H. destruct H as (t & Ht & Hst & _ & Hp).
  exists t. split; [done|]. unfold status_writes in Hst.
  destruct (coro t) as [steps|i text rest o c| | |e]; simpl in Hp.
  - rewrite Hp in Hst. simpl in Hst. congruence.
  - left. by eauto 6.
  - destruct Hp as (p & tail & Hacts & Hplain & Hc).
    apply (closing_writes tail Returned) in Hc as (s & Hterm & Htail).
    rewrite Hacts in Hst. simpl in Hst. fold (writes (p ++ tail)) in Hst.
    rewrite writes_app, (plain_writes p Hplain), Htail in Hst. simpl in Hst.
    rewrite Hst in Hs. by rewrite Hs in Hterm.
  - rewrite Hp in Hst. simpl in Hst. congruence.
  - right. destruct Hp as [_ [msg ->]]. by eauto.
Qed.

(** X4. In every state a JobManager can reach, [cancel_job] called for a
    registered Job with status RUNNING returns true when the task of the
    Job waits in a step; the one other case is a task ended by an
    exception that no handler of [_run_job] matches, which leaves the
    status at RUNNING: then [cancel_job] returns false and changes
    nothing.  Called for a registered Job with a terminal status it
    returns false and changes nothing. *)
Theorem cancel_job_by_status (evs : list event) (k : string) (j : Job) :
  get_job k (run evs new_manager) = Some j →
  (status j = "RUNNING" →
   ∃ t, task j = Some t
        ∧ (((∃ i text rest o c, coro t = InStep i text rest o c)
            ∧ (cancel_job k (run evs new_manager)).1 = true)
           ∨ ((∃ msg, coro t = Raised (BaseException msg))
              ∧ cancel_job k (run evs new_manager)
                = (false, run evs new_manager))))
  ∧ (terminal (status j) = true →
     cancel_job k (run evs new_manager) = (false, run evs new_manager)).
Proof.
  intros Hget. split; [|by apply cancel_job_terminal].
  intros Hs. unfold get_job in Hget.
  destruct (dict_get k (jobs (run evs new_manager))) as [a|] eqn:Hk; [|done].
  simpl in Hget.
  destruct (running_task evs a j Hget Hs) as (t & Ht & Hc).
  exists t. split; [done|].
  rewrite (cancel_job_found k _ a j t Hk Hget Ht). unfold done.
  destruct Hc as [(i & text & rest & o & c & Hc)|[msg Hc]]; rewrite Hc.
  - left. split; [by eauto 6|done].
  - right. split; [by eauto|done].
Qed.

Lemma cancel_job_by_status_witness :
  (cancel_job "1b9d6bcd"
     (run [CreateJob "1b9d6bcd-bbfd-4b2d-9b5d-ab8dfbbd4bed" "11:59:59"
                     obliging "demo" ["a"]; RunTask 0] new_manager)).1
  = true.
Proof.
  destruct (proj1 (cancel_job_by_status
                     [CreateJob "1b9d6bcd-bbfd-4b2d-9b5d-ab8dfbbd4bed"
                                "11:59:59" obliging "demo" ["a"]; RunTask 0]
                     "1b9d6bcd" _ eq_refl) eq_refl)
    as (t & Ht & [[_ H]|[[msg Hc] _]]).
  - exact H.
  - vm_compute in Ht. injection Ht as <-. discriminate Hc.
Defined.

(** ** Cancelling a Job that waits in a step *)

Lemma cancelling_step ran a m e j0 j :
  objects m !! a = Some j → cancelling ran j0 j →
  ∃ j', objects (step m e) !! a = Some j'
        ∧ cancelling (ran || is_run a e) j0 j'
        ∧ actions_at a (effects m e)
          = if ran then []
            else if is_run a e then handler CancelledError else [].
Proof.
  intros Ha (t & Ht & Hc).
  assert (cancelling ran j0 j) as Hj by (by exists t).
  assert ((if ran then [] else []) = ([] : list action)) as Hnil
    by (by destruct ran).
  destruct e as [uuid4 now ex nm steps|k| |k|b]; simpl;
    rewrite ?orb_false_r, ?Hnil.
  - exists j. split; [by apply lookup_app_l_Some|done].
  - by exists j.
  - by exists j.
  - unfold cancel_job.
    destruct (dict_get k (jobs m)) as [b|]; [|by exists j].
    destruct (objects m !! b) as [jb|] eqn:Hb; [|by exists j].
    destruct (task jb) as [tb|] eqn:Htb; [|by exists j].
    destruct (done tb) eqn:Hd; [by exists j|]. simpl.
    destruct (decide (a = b)) as [->|Hne].
    + rewrite list_lookup_insert_eq by (by eapply lookup_lt_Some).
      assert (jb = j) as -> by congruence.
      assert (tb = t) as -> by congruence.
      eexists; split; [done|]. split; [|done].
      eexists; split; [done|]. unfold cancel. rewrite Hd. simpl.
      destruct ran.
      * destruct Hc as (Hc & _). unfold done in Hd. by rewrite Hc in Hd.
      * destruct Hc as ((i & s & rest & o & Hc) & _ & Hs & Hl).
        split_and!; eauto.
    + rewrite list_lookup_insert_ne by done. by exists j.
  - rewrite actions_at_tagged. unfold run_task.
    destruct (decide (b = a)) as [->|Hne].
    + rewrite bool_decide_eq_true_2, orb_true_r by done. rewrite Ha. simpl.
      rewrite list_lookup_insert_eq by (by eapply lookup_lt_Some).
      eexists; split; [done|]. unfold step_job. rewrite Ht.
      destruct ran.
      * destruct Hc as (Hc & Hs & Hl). unfold done. rewrite Hc. simpl.
        split; [|done]. exists t. by rewrite Hc.
      * destruct Hc as ((i & s & rest & o & Hc) & Hm & Hs & Hl).
        unfold done. rewrite Hc, Hm. simpl. split; [|done].
        eexists; split; [done|]. simpl. by rewrite Hl.
    + rewrite bool_decide_eq_false_2, orb_false_r by done.
      exists j. split; [|by rewrite Hnil].
      destruct (objects m !! b); [|done]. simpl.
      by rewrite list_lookup_insert_ne.
Qed.

Lemma cancelling_run a evs : ∀ ran m j0 j,
  objects m !! a = Some j → cancelling ran j0 j →
  ∃ j', objects (run evs m) !! a = Some j'
        ∧ cancelling (ran || bool_decide (0 < slices a evs)) j0 j'
        ∧ actions_at a (history evs m)
          = if ran then []
            else if bool_decide (0 < slices a evs)
                 then handler CancelledError else [].
Proof.
  induction evs as [|e evs IH]; intros ran m j0 j Ha Hj.
  - exists j. rewrite orb_false_r. by destruct ran.
  - destruct (cancelling_step ran a m e j0 j Ha Hj) as (j1 & Ha1 & Hj1 & He).
    destruct (IH _ _ j0 j1 Ha1 Hj1) as (j2 & Ha2 & Hj2 & Hh).
    exists j2. cbn [run foldl history]. fold (run evs (step m e)).
    rewrite actions_at_app, He, Hh, slices_cons. split; [done|].
    destruct ran, (is_run a e), (bool_decide (0 < slices a evs)) eqn:E;
      simpl in *; rewrite ?E in *; try done.
Qed.

(** X5. A Job cancelled while its task waits in a call of [run_debug] that
    lets the cancellation through: [cancel_job] returns true, and once the
    task has had its next slice, whatever else happens before or after,
    the status is CANCELLED, the log is the log as it was with the
    cancellation notice appended, the task is done, and the two actions of
    the handler are all the Job has done since: no further step is logged
    or called. *)
Theorem cancelled_in_step (m : JobManager) (k : string) (a : nat) (j : Job)
    (ex : Executor) (i : nat) (text : string) (rest : list string)
    (o : outcome) (mc : bool) (evs : list event) :
  dict_get k (jobs m) = Some a →
  objects m !! a = Some j →
  task j
  = Some (mkTask (InStep i text rest o (Raise CancelledError)) mc ex) →
  0 < slices a evs →
  (cancel_job k m).1 = true
  ∧ ∃ j' t', objects (run (CancelJob k :: evs) m) !! a = Some j'
             ∧ status j' = "CANCELLED"
             ∧ logs j' = logs j ++ ["⚠️ Job was cancelled by user."]
             ∧ task j' = Some t' ∧ done t' = true
             ∧ actions_at a (history (CancelJob k :: evs) m)
               = [SetStatus "CANCELLED";
                  JobLog "⚠️ Job was cancelled by user."].
Proof.
  intros Hk Ha Ht Hn.
  rewrite (cancel_job_found k m a j _ Hk Ha Ht). cbn [done coro fst].
  split; [done|].
  cbn [run foldl history step effects app]. fold (run evs).
  rewrite (cancel_job_found k m a j _ Hk Ha Ht). cbn [done coro snd world].
  set (j1 := set_task _ j).
  destruct (cancelling_run a evs false
              (mkJobManager (<[a:=j1]> (objects m)) (jobs m)) j j1)
    as (j' & Hj' & (t' & Ht' & Hc) & Hh).
  - cbn [objects]. apply list_lookup_insert_eq. by eapply lookup_lt_Some.
  - eexists; split; [done|]. simpl. split_and!; eauto.
  - rewrite bool_decide_eq_true_2 in Hc, Hh by done. simpl in Hc, Hh.
    destruct Hc as (Hc & Hs & Hl).
    exists j', t'. split_and!; try done. unfold done. by rewrite Hc.
Qed.

Lemma cancelled_in_step_witness :
  ∃ j' t',
    objects (run (CancelJob "1b9d6bcd" :: [RunTask 0])
                 (run [CreateJob "1b9d6bcd-bbfd-4b2d-9b5d-ab8dfbbd4bed"
                                 "11:59:59" obliging "demo" ["a"; "b"];
                       RunTask 0] new_manager)) !! 0 = Some j'
    ∧ status j' = "CANCELLED"
    ∧ logs j' = ["[12:00:00] Initializing Agent & Tools...";
                 "[12:00:00] Agent Setup Complete.";
                 "[12:00:00] Starting execution of 2 steps.";
                 "[12:00:00] Step 1: a"]
                ++ ["⚠️ Job was cancelled by user."]
    ∧ task j' = Some t' ∧ done t' = true
    ∧ actions_at 0
        (history (CancelJob "1b9d6bcd" :: [RunTask 0])
                 (run [CreateJob "1b9d6bcd-bbfd-4b2d-9b5d-ab8dfbbd4bed"
                                 "11:59:59" obliging "demo" ["a"; "b"];
                       RunTask 0] new_manager))
      = [SetStatus "CANCELLED"; JobLog "⚠️ Job was cancelled by user."].
Proof.
  refine (proj2 (cancelled_in_step
           (run [CreateJob "1b9d6bcd-bbfd-4b2d-9b5d-ab8dfbbd4bed"
                           "11:59:59" obliging "demo" ["a"; "b"];
                 RunTask 0] new_manager)
           "1b9d6bcd" 0
           (mkJob "1b9d6bcd" "demo" "RUNNING"
                  ["[12:00:00] Initializing Agent & Tools...";
                   "[12:00:00] Agent Setup Complete.";
                   "[12:00:00] Starting execution of 2 steps.";
                   "[12:00:00] Step 1: a"]
                  (Some (mkTask (InStep 1 "a" ["b"] (Return "done")
                                        (Raise CancelledError))
                                false obliging)) "11:59:59")
           obliging 1 "a" ["b"] (Return "done") false [RunTask 0]
           _ _ _ _)); [reflexivity|vm_compute; reflexivity|reflexivity|].
  vm_compute. lia.
Defined.

(** ** Jobs do not disturb each other *)

Lemma job_at evs0 uuid4 now ex nm steps evs :
  let m0 := run evs0 new_manager in
  let a := length (objects m0) in
  let job_id := Strings.String.substring 0 8 uuid4 in
  let create := CreateJob uuid4 now ex nm steps in
  let r := uncancelled ex (slices a evs) (Created steps) in
  Forall (λ e, is_cancel job_id e = false) evs →
  objects (run (evs0 ++ create :: evs) new_manager) !! a
  = Some (set_task (Some (mkTask r.2 false ex))
            (perform_all ex
               (mkJob job_id nm "PENDING" []
                      (Some (mkTask (Created steps) false ex)) now) r.1))
  ∧ actions_at a (history (evs0 ++ create :: evs) new_manager) = r.1.
Proof.
  intros m0 a job_id create r Hcan.
  pose proof (create_job_object uuid4 now ex nm steps m0) as Hobj.
  assert (reg_ok (step m0 create)) as Hreg
    by apply reg_ok_step, reg_ok_run, reg_ok_new.
  destruct (evolve a evs (step m0 create) _ (Created steps) ex
                   Hreg Hobj eq_refl Hcan) as [Hj Hacts].
  rewrite run_app, history_app, actions_at_app.
  pose proof (hist_ok_reachable evs0 a) as H0. fold m0 in H0.
  unfold a at 1 in H0. rewrite lookup_ge_None_2 in H0 by done. rewrite H0.
  split; [exact Hj|exact Hacts].
Qed.

(** X6. What becomes of a Job nobody cancels depends on the number of
    slices its own task was given and on nothing else: after two runs of
    events that give the task the same number of slices, whatever other
    Jobs were created, run or cancelled in between, the Job object is the
    same and it has performed the same actions. *)
Theorem job_depends_on_own_slices evs0 uuid4 now ex nm steps evs evs' :
  let m0 := run evs0 new_manager in
  let a := length (objects m0) in
  let job_id := Strings.String.substring 0 8 uuid4 in
  let create := CreateJob uuid4 now ex nm steps in
  Forall (λ e, is_cancel job_id e = false) evs →
  Forall (λ e, is_cancel job_id e = false) evs' →
  slices a evs = slices a evs' →
  objects (run (evs0 ++ create :: evs) new_manager) !! a
  = objects (run (evs0 ++ create :: evs') new_manager) !! a
  ∧ actions_at a (history (evs0 ++ create :: evs) new_manager)
    = actions_at a (history (evs0 ++ create :: evs') new_manager).
Proof.
  cbv zeta. intros Hcan Hcan' Hn.
  destruct (job_at evs0 uuid4 now ex nm steps evs Hcan) as [-> ->].
  destruct (job_at evs0 uuid4 now ex nm steps evs' Hcan') as [-> ->].
  by rewrite Hn.
Qed.

Lemma job_depends_on_own_slices_witness :
  objects (run ([] ++ CreateJob "1b9d6bcd-bbfd-4b2d-9b5d-ab8dfbbd4bed"
                                "11:59:59" obliging "demo" ["a"]
                :: [RunTask 0; ListJobs]) new_manager) !! 0
  = objects (run ([] ++ CreateJob "1b9d6bcd-bbfd-4b2d-9b5d-ab8dfbbd4bed"
                                  "11:59:59" obliging "demo" ["a"]
                  :: [CreateJob "7c9e6679-7425-40de-944b-e07fc1f90ae7"
                                "12:00:01" flaky "other" ["x"; "y"];
                      RunTask 1; RunTask 0; CancelJob "7c9e6679"])
                 new_manager) !! 0.
Proof.
  refine (proj1 (job_depends_on_own_slices
            [] "1b9d6bcd-bbfd-4b2d-9b5d-ab8dfbbd4bed" "11:59:59" obliging
            "demo" ["a"] [RunTask 0; ListJobs]
            [CreateJob "7c9e6679-7425-40de-944b-e07fc1f90ae7" "12:00:01"
                       flaky "other" ["x"; "y"];
             RunTask 1; RunTask 0; CancelJob "7c9e6679"] _ _ _)).
  - repeat constructor.
  - repeat constructor.
  - reflexivity.
Defined.

(** ** create_job and get_job *)

(** X7. [get_job] with the id [create_job] has returned gives the Job just
    made: that id, the given name, status PENDING, an empty log, the
    creation time, and a task that has not started; and for every other id
    [get_job] returns what it returned before the call. *)
Theorem get_job_after_create_job (evs : list event) (uuid4 now : string)
    (ex : Executor) (nm : string) (steps : list string) :
  let m := run evs new_manager in
  let r := create_job uuid4 now ex nm steps m in
  get_job r.1 r.2
  = Some (mkJob (Strings.String.substring 0 8 uuid4) nm "PENDING" []
                (Some (mkTask (Created steps) false ex)) now)
  ∧ ∀ k, k ≠ r.1 → get_job k r.2 = get_job k m.
Proof.
  intros m r. split.
  - unfold get_job, r. cbn [create_job fst snd jobs].
    rewrite dict_get_set_eq. cbn [mbind option_bind].
    apply create_job_object.
  - intros k Hk. unfold get_job, r. cbn [create_job fst snd jobs objects].
    rewrite dict_get_set_ne by (intros Heq; apply Hk; symmetry; exact Heq).
    destruct (dict_get k (jobs m)) as [b|] eqn:Hb; [|done]. simpl.
    destruct (reg_ok_run evs new_manager reg_ok_new k b Hb) as (j & Hj & _).
    fold m in Hj. rewrite Hj. by apply lookup_app_l_Some.
Qed.

(** ** Calls of the runner *)

(** X8. For a Job whose setup succeeds, whose calls of [run_debug] all
    return and which nobody cancels, [run_debug] is called exactly once
    for each step, in the order of the steps and with the step text. *)
Theorem every_step_called_once evs0 uuid4 now ex nm steps rs evs :
  let m0 := run evs0 new_manager in
  let a := length (objects m0) in
  let job_id := Strings.String.substring 0 8 uuid4 in
  let create := CreateJob uuid4 now ex nm steps in
  setup_tools ex = None →
  responds ex 1 steps rs →
  Forall (λ e, is_cancel job_id e = false) evs →
  length steps < slices a evs →
  awaits (actions_at a (history (evs0 ++ create :: evs) new_manager))
  = zip (seq 1 (length steps)) steps.
Proof.
  cbv zeta. intros Hs Hr Hcan Hn.
  destruct (job_after evs0 uuid4 now ex nm steps evs Hcan) as [_ Hacts].
  rewrite uncancelled_synchronous in Hacts by done.
  rewrite (_run_job_succeeds ex steps rs Hs Hr) in Hacts. rewrite Hacts.
  cbn [fst].
  change (SetStatus "RUNNING" :: ?l) with ([SetStatus "RUNNING"] ++ l).
  rewrite !awaits_app, awaits_logs.
  rewrite awaits_step_actions by (by eapply responds_length).
  change (awaits [SetStatus "RUNNING"]) with ([] : list (nat * string)).
  change (awaits [AgentLog "✅ Workflow completed successfully."])
    with ([] : list (nat * string)).
  change (awaits [SetStatus "COMPLETED"]) with ([] : list (nat * string)).
  by rewrite !app_nil_l, !app_nil_r.
Qed.

Lemma every_step_called_once_witness :
  awaits (actions_at 0
    (history ([] ++ CreateJob "1b9d6bcd-bbfd-4b2d-9b5d-ab8dfbbd4bed"
                              "11:59:59" obliging "demo"
                              ["open page"; "click button"]
              :: [RunTask 0; RunTask 0; RunTask 0]) new_manager))
  = [(1, "open page"); (2, "click button")].
Proof.
  apply (every_step_called_once [] "1b9d6bcd-bbfd-4b2d-9b5d-ab8dfbbd4bed"
           "11:59:59" obliging "demo" ["open page"; "click button"]
           ["done"; "done"] [RunTask 0; RunTask 0; RunTask 0]).
  - reflexivity.
  - simpl. auto.
  - repeat constructor.
  - vm_compute. lia.
Defined.

(** X9. When setup fails, no step is attempted: the first slice of the
    task ends the Job with status FAILED, [run_debug] is never called, and
    neither a "Starting execution" line nor any "Step" line is logged:
    the log has the two lines of the failed setup and nothing else,
    however many steps the Job has. *)
Theorem failing_setup_runs_no_step evs0 uuid4 now ex nm steps msg evs :
  let m0 := run evs0 new_manager in
  let a := length (objects m0) in
  let job_id := Strings.String.substring 0 8 uuid4 in
  let create := CreateJob uuid4 now ex nm steps in
  setup_tools ex = Some (Exception msg) →
  Forall (λ e, is_cancel job_id e = false) evs →
  0 < slices a evs →
  awaits (actions_at a (history (evs0 ++ create :: evs) new_manager)) = []
  ∧ ∃ j, objects (run (evs0 ++ create :: evs) new_manager) !! a = Some j
         ∧ status j = "FAILED" ∧ length (logs j) = 2.
Proof.
  cbv zeta. intros Hs Hcan Hn.
  destruct (failing_setup_job evs0 uuid4 now ex nm steps msg evs Hs Hcan Hn)
    as (j & Hj & Hst & Hl & Ha).
  split; [done|]. exists j. by rewrite Hl.
Qed.

Lemma failing_setup_runs_no_step_witness :
  awaits (actions_at 0
    (history ([] ++ CreateJob "1b9d6bcd-bbfd-4b2d-9b5d-ab8dfbbd4bed"
                              "11:59:59" broken "demo" ["a"; "b"]
              :: [RunTask 0]) new_manager)) = [].
Proof.
  refine (proj1 (failing_setup_runs_no_step
            [] "1b9d6bcd-bbfd-4b2d-9b5d-ab8dfbbd4bed" "11:59:59" broken
            "demo" ["a"; "b"] "npx not found" [RunTask 0] _ _ _)).
  - reflexivity.
  - repeat constructor.
  - vm_compute. lia.
Defined.

(** * WorkflowManager *)

(** X10. [get_workflow] returns the steps last stored under a name by
    [add_workflow], is not affected by what is stored under other names,
    and returns the empty list for a name that is not stored. *)
Theorem get_workflow_add_workflow (w : WorkflowManager) (name : string)
    (steps : list string) :
  get_workflow name (add_workflow name steps w) = steps
  ∧ (∀ name', name' ≠ name →
       get_workflow name' (add_workflow name steps w) = get_workflow name' w)
  ∧ (∀ name', name' ∉ list_workflows w → get_workflow name' w = []).
Proof.
  unfold get_workflow, add_workflow, list_workflows. simpl. split_and!.
  - by rewrite dict_get_set_eq.
  - intros name' Hne. by rewrite dict_get_set_ne.
  - intros name' Hin. by rewrite dict_get_fresh.
Qed.

(** X11. [add_workflow] never removes or reorders a name: storing steps
    under a name that is listed leaves [list_workflows] as it is, and
    storing them under a new name appends that name at the end. *)
Theorem list_workflows_add_workflow (w : WorkflowManager) (name : string)
    (steps : list string) :
  list_workflows (add_workflow name steps w)
  = if decide (name ∈ list_workflows w) then list_workflows w
    else list_workflows w ++ [name].
Proof. apply dict_set_keys. Qed.

(** * The interactive CLI *)

(** ** The loop that stops the running Jobs *)

Lemma dict_get_elem {V} k (v : V) d :
  NoDup d.*1 → (k, v) ∈ d → dict_get k d = Some v.
Proof.
  induction d as [|[k0 v0] d IH]; intros Hnd Hin.
  - by apply elem_of_nil in Hin.
  - rewrite fmap_cons in Hnd. apply NoDup_cons in Hnd as [Hk0 Hnd].
    cbn [dict_get]. apply elem_of_cons in Hin as [[= -> ->]|Hin].
    + by rewrite decide_True.
    + rewrite decide_False; [by apply IH|].
      intros ->. apply Hk0. apply list_elem_of_fmap. by exists (k, v).
Qed.

Lemma keys_nodup evs : NoDup (jobs (run evs new_manager)).*1.
Proof.
  induction evs as [|e evs IH] using rev_ind; [constructor|].
  rewrite run_app. cbn [run foldl]. rewrite jobs_step.
  destruct e; try done. rewrite dict_set_keys. case_decide; [done|].
  apply NoDup_app. split_and!; [done| |apply NoDup_singleton].
  intros x Hx [->|?%elem_of_nil]%elem_of_cons; done.
Qed.

Lemma has_task evs a j :
  objects (run evs new_manager) !! a = Some j → is_Some (task j).
Proof.
  intros Hj. pose proof (hist_ok_reachable evs a) as H. rewrite Hj in H.
  destruct H as (t & -> & _). by eexists.
Qed.

Lemma stop_events_ext entries m m' :
  (∀ b, status <$> objects m' !! b = status <$> objects m !! b) →
  stop_events entries m' = stop_events entries m.
Proof.
  intros Hst. unfold stop_events.
  induction entries as [|kv rest IH]; [done|]. cbn [omap list_omap].
  rewrite IH. specialize (Hst kv.2).
  destruct (objects m' !! kv.2), (objects m !! kv.2); simplify_eq/=; try done.
  by rewrite Hst.
Qed.

Lemma manager_eta m : mkJobManager (objects m) (jobs m) = m.
Proof. by destruct m. Qed.

(** What [job.task.cancel()] of line 219 makes of the manager is what
    [cancel_job] with the key of the Job makes of it. *)
Lemma cancel_entry k a m job t :
  dict_get k (jobs m) = Some a → objects m !! a = Some job →
  task job = Some t →
  mkJobManager (<[a := set_task (Some (cancel t).2) job]> (objects m)) (jobs m)
  = step m (CancelJob k).
Proof.
  intros Hk Ha Ht. cbn [step]. rewrite (cancel_job_found k m a job t Hk Ha Ht).
  unfold cancel. destruct (done t); cbn [snd]; [|done].
  by rewrite set_task_task, list_insert_id, manager_eta.
Qed.

Lemma stop_jobs_run entries : ∀ m,
  (∀ kv, kv ∈ entries → dict_get kv.1 (jobs m) = Some kv.2) →
  (∀ a job, objects m !! a = Some job → is_Some (task job)) →
  stop_jobs entries m = (run (stop_events entries m) m, false).
Proof.
  induction entries as [|[k a] rest IH]; intros m Hdict Htask; [done|].
  assert (∀ kv, kv ∈ rest → dict_get kv.1 (jobs m) = Some kv.2) as Hrest
    by (intros kv Hkv; apply Hdict; by right).
  cbn [stop_jobs stop_events omap list_omap snd fst].
  fold (stop_events rest m).
  destruct (objects m !! a) as [job|] eqn:Ha; [|by apply IH].
  destruct (decide (status job = "RUNNING")) as [Hs|Hs]; [|by apply IH].
  destruct (Htask a job Ha) as [t Ht]. rewrite Ht.
  rewrite (cancel_entry k a m job t (Hdict (k, a) ltac:(by left)) Ha Ht).
  cbn [run foldl]. fold (run (stop_events rest m) (step m (CancelJob k))).
  assert (∀ b, status <$> objects (step m (CancelJob k)) !! b
               = status <$> objects m !! b) as Hst.
  { intros b. destruct (cancel_job_frame k m) as (Hf & _).
    apply (f_equal (λ l, (λ x, x.1.1.2) <$> l !! b)) in Hf.
    by rewrite !list_lookup_fmap, <-!option_fmap_compose in Hf. }
  rewrite <-(stop_events_ext rest m (step m (CancelJob k)) Hst).
  apply IH.
  - intros kv Hkv. rewrite jobs_step. by apply Hrest.
  - intros b jb Hb.
    destruct (cancel_job_frame k m) as (_ & Hc).
    apply (f_equal (λ l, l !! b)) in Hc.
    rewrite !list_lookup_fmap in Hc. cbn [step] in Hb. rewrite Hb in Hc.
    destruct (objects m !! b) as [jb0|] eqn:Hb0; [|done].
    destruct (Htask b jb0 Hb0) as [t0 Ht0]. simpl in Hc. rewrite Ht0 in Hc.
    destruct (task jb); [by eexists|done].
Qed.

Lemma stop_events_cancels entries m :
  Forall (λ e, ∃ k, e = CancelJob k) (stop_events entries m).
Proof.
  unfold stop_events. induction entries as [|kv rest IH]; [constructor|].
  cbn [omap list_omap]. destruct (objects m !! kv.2) as [job|]; [|done].
  destruct (decide _); [|done]. constructor; [by eexists|done].
Qed.

(** ** Sessions *)

Section CliProperties.

Variable strip : string → string.
Variable lower : string → string.
Variable split : string → list string.

(** What one command can do to the two managers. *)
Lemma command_effect parts uuid4 now ex c :
  let c' := (command lower parts uuid4 now ex c).2 in
  workflow_mgr c' = workflow_mgr c
  ∧ (job_mgr c' = job_mgr c
     ∨ job_mgr c' = (stop_jobs (jobs (job_mgr c)) (job_mgr c)).1
     ∨ (∃ name, get_workflow name (workflow_mgr c) ≠ []
               ∧ job_mgr c'
                 = (create_job uuid4 now ex name
                               (get_workflow name (workflow_mgr c))
                               (job_mgr c)).2)
     ∨ ∃ k, job_mgr c' = (cancel_job k (job_mgr c)).2).
Proof.
  unfold command. destruct parts as [|word args]; [by auto|].
  cbv zeta. repeat case_decide.
  - destruct (stop_jobs _ _).2; simpl; auto.
  - simpl. auto.
  - destruct args as [|name args]; [simpl; by auto|].
    destruct (get_workflow name (workflow_mgr c)) as [|s0 steps] eqn:Hw;
      [simpl; by auto|].
    simpl. split; [done|]. right; right; left. exists name.
    by rewrite Hw.
  - destruct (list_jobs (job_mgr c)); simpl; auto.
  - destruct args as [|job_id args]; [simpl; by auto|].
    destruct (get_job job_id (job_mgr c)); simpl; auto.
  - destruct args as [|job_id args]; [simpl; by auto|]. simpl. eauto 6.
  - simpl. auto.
  - simpl. auto.
Qed.

Lemma dict_set_Forall {V} (P : V → Prop) k v (d : list (string * V)) :
  P v → Forall (λ kv, P kv.2) d → Forall (λ kv, P kv.2) (dict_set k v d).
Proof.
  intros Hv. induction 1 as [|[k0 v0] d Hk0 Hd IH]; simpl.
  - by repeat constructor.
  - case_decide; by constructor.
Qed.

Lemma cli_ok_happen c h : cli_ok c → cli_ok (happen strip lower split c h).2.
Proof.
  intros [(evs & Hm & Hevs) Hw]. destruct h as [line uuid4 now ex|a].
  - unfold happen, feed. cbn [snd]. destruct (reading c) as [| |name acc|].
    + destruct (command_effect (split (strip line)) uuid4 now ex c)
        as [Hwf [Hj|[Hj|[(name & Hne & Hj)|(k & Hj)]]]];
        (split; [|by rewrite Hwf]); rewrite Hj, Hm.
      * by exists evs.
      * rewrite stop_jobs_run.
        -- exists (evs ++ stop_events (jobs (run evs new_manager))
                                      (run evs new_manager)).
           cbn [fst]. rewrite run_app. split; [done|].
           apply Forall_app. split; [done|].
           eapply Forall_impl; [apply stop_events_cancels|].
           by intros e [k ->].
        -- intros [k a] Hin. by apply dict_get_elem; [apply keys_nodup|].
        -- intros a job. apply has_task.
      * exists (evs ++ [CreateJob uuid4 now ex name
                                  (get_workflow name (workflow_mgr c))]).
        rewrite run_app. split; [done|].
        apply Forall_app. split; [done|]. by repeat constructor.
      * exists (evs ++ [CancelJob k]). rewrite run_app. split; [done|].
        apply Forall_app. split; [done|]. by repeat constructor.
    + split; [by exists evs|done].
    + case_decide.
      * destruct acc as [|s0 acc]; cbn [snd workflow_mgr job_mgr];
          (split; [by exists evs|]); [done|].
        cbn [workflow_mgr add_workflow workflows].
        by apply (dict_set_Forall (λ v, v ≠ [])).
      * split; [by exists evs|done].
    + split; [by exists evs|done].
  - unfold happen. destruct (reading c); cbn [snd job_mgr workflow_mgr];
      (split; [|done]); try by exists evs.
    all: exists (evs ++ [RunTask a]); rewrite run_app, <-Hm;
      (split; [done|]); apply Forall_app; split; [done|];
      by repeat constructor.
Qed.

Lemma cli_ok_session hs : ∀ c,
  cli_ok c → cli_ok (session strip lower split hs c).2.
Proof.
  induction hs as [|h hs IH]; intros c Hc; [done|].
  cbn [session snd]. by apply IH, cli_ok_happen.
Qed.

Lemma cli_ok_start : cli_ok cli_loop.2.
Proof.
  split; [by exists []|]. by repeat constructor.
Qed.

Lemma cli_ok_listed c name :
  cli_ok c →
  name ∈ list_workflows (workflow_mgr c)
  ↔ get_workflow name (workflow_mgr c) ≠ [].
Proof.
  intros [_ Hw]. unfold list_workflows, get_workflow. split.
  - intros Hin. apply dict_get_is_Some in Hin as [steps Hs]. rewrite Hs.
    simpl.
    induction Hw as [|[k0 v0] d Hk0 _ IH]; [done|]. simpl in Hs.
    case_decide; [by simplify_eq|by apply IH].
  - intros Hne. apply dict_get_is_Some.
    by destruct (dict_get name (workflows _)).
Qed.

(** X12. However the operator drives [cli_loop], and however the tasks
    are scheduled in between, the JobManager is in a state it reaches by
    calls of [create_job] and [cancel_job] and slices of its tasks; none
    of the calls of [create_job] is given an empty list of steps; and no
    workflow stored in the WorkflowManager is empty. *)
Theorem cli_drives_job_manager (hs : list happening) :
  let c := (session strip lower split hs cli_loop.2).2 in
  (∃ evs, job_mgr c = run evs new_manager ∧ Forall with_steps evs)
  ∧ (∀ name, name ∈ list_workflows (workflow_mgr c)
             ↔ get_workflow name (workflow_mgr c) ≠ []).
Proof.
  pose proof (cli_ok_session hs _ cli_ok_start) as Hc.
  split; [apply Hc|intros name; by apply cli_ok_listed].
Qed.

End CliProperties.

(** ** Commands *)

Section CliCommands.

Variable strip : string → string.
Variable lower : string → string.
Variable split : string → list string.

Lemma command_start word name rest uuid4 now ex c :
  lower word = "start" →
  command lower (word :: name :: rest) uuid4 now ex c
  = match get_workflow name (workflow_mgr c) with
    | [] => ([Print ("❌ Workflow '" +:+ name +:+ "' not found.")], c)
    | steps =>
        ([Print ("✅ Job started! ID: "
                 +:+ (create_job uuid4 now ex name steps (job_mgr c)).1
                 +:+ " (Type 'jobs' to view status)")],
         mkCli (workflow_mgr c)
               (create_job uuid4 now ex name steps (job_mgr c)).2 Prompting)
    end.
Proof. intros H. unfold command. cbv zeta. by rewrite H. Qed.

(** X13. In a run of [cli_loop], the command [start <name>] starts a Job
    exactly when the name is one that [list] shows: for a listed name it
    calls [create_job] with the name and the stored steps, of which there
    is at least one, and reports the id; for any other name it reports
    that the workflow was not found and changes nothing. *)
Theorem start_starts_listed_workflows hs line uuid4 now ex word name rest :
  let c := (session strip lower split hs cli_loop.2).2 in
  let r := feed strip lower split line uuid4 now ex c in
  reading c = Prompting →
  split (strip line) = word :: name :: rest →
  lower word = "start" →
  if decide (name ∈ list_workflows (workflow_mgr c))
  then get_workflow name (workflow_mgr c) ≠ []
       ∧ r = ([Print ("✅ Job started! ID: "
                       +:+ Strings.String.substring 0 8 uuid4
                       +:+ " (Type 'jobs' to view status)");
               Ask (newline +:+ "(cli) > ")],
              mkCli (workflow_mgr c)
                    (create_job uuid4 now ex name
                                (get_workflow name (workflow_mgr c))
                                (job_mgr c)).2
                    Prompting)
  else r = ([Print ("❌ Workflow '" +:+ name +:+ "' not found.");
             Ask (newline +:+ "(cli) > ")], c).
Proof.
  intros c r Hmode Hparts Hword.
  pose proof (cli_ok_listed c name
                (cli_ok_session strip lower split hs _ cli_ok_start))
    as Hlisted.
  unfold r, feed. rewrite Hmode, Hparts, (command_start _ _ _ _ _ _ _ Hword).
  case_decide as Hin.
  - apply Hlisted in Hin. split; [done|].
    by destruct (get_workflow name (workflow_mgr c)).
  - destruct (get_workflow name (workflow_mgr c)) as [|s0 steps] eqn:Hw.
    + simpl. by rewrite Hmode.
    + destruct Hin. by apply Hlisted.
Qed.

Lemma session_app hs hs' c :
  (session strip lower split (hs ++ hs') c).2
  = (session strip lower split hs' (session strip lower split hs c).2).2.
Proof.
  revert c. induction hs as [|h hs IH]; intros c; [done|].
  cbn [app session snd]. apply IH.
Qed.

Lemma session_steps uuid4 now ex wf jm name ls : ∀ acc,
  Forall (λ l, lower l ≠ "done") ls →
  (session strip lower split ((λ l, Typed l uuid4 now ex) <$> ls)
           (mkCli wf jm (AskStep name acc))).2
  = mkCli wf jm (AskStep name (acc ++ filter (λ l, strip l ≠ "") ls)).
Proof.
  induction ls as [|l ls IH]; intros acc Hls.
  - simpl. by rewrite app_nil_r.
  - apply Forall_cons in Hls as [Hl Hls]. rewrite fmap_cons.
    cbn [session snd happen feed reading workflow_mgr job_mgr].
    rewrite decide_False by done. cbn [snd]. rewrite (IH _ Hls).
    destruct (decide (strip l = "")) as [Hb|Hb].
    + by rewrite filter_cons_False by (by intros ?).
    + by rewrite filter_cons_True, <-app_assoc by done.
Qed.

(** X14. The dialogue of the command [create]: the line after the command
    is the name, every following line up to the first that lowercases to
    "done" is a step unless stripping it leaves nothing, and at "done" the
    steps are stored under the name in the order typed; when no step was
    kept nothing is stored.  The JobManager is not touched, and the loop
    is back at its prompt. *)
Theorem create_dialogue c line name ls d uuid4 now ex word args :
  reading c = Prompting →
  split (strip line) = word :: args →
  lower word = "create" →
  Forall (λ l, lower l ≠ "done") ls →
  lower d = "done" →
  (session strip lower split
           ((λ l, Typed l uuid4 now ex) <$> (line :: name :: ls ++ [d])) c).2
  = mkCli match filter (λ l, strip l ≠ "") ls with
          | [] => workflow_mgr c
          | steps => add_workflow name steps (workflow_mgr c)
          end
          (job_mgr c) Prompting.
Proof.
  intros Hmode Hparts Hword Hls Hd.
  rewrite !fmap_cons, fmap_app.
  cbn [session snd]. rewrite session_app.
  assert ((happen strip lower split c (Typed line uuid4 now ex)).2
          = mkCli (workflow_mgr c) (job_mgr c) AskName) as ->.
  { unfold happen, feed. rewrite Hmode, Hparts. unfold command. cbv zeta.
    by rewrite Hword. }
  cbn [happen feed reading snd workflow_mgr job_mgr].
  rewrite (session_steps _ _ _ _ _ _ _ [] Hls). cbn [app].
  cbn [fmap list_fmap session happen feed reading snd workflow_mgr job_mgr].
  rewrite decide_True by done.
  by destruct (filter _ ls).
Qed.

(** X15. A line whose command word is none of exit, quit, start, kill and
    create, an empty line included, changes neither the WorkflowManager
    nor the JobManager nor any Job: listing, showing the jobs, showing a
    log, a missing argument and an unknown command only write. *)
Theorem other_commands_change_nothing c line uuid4 now ex :
  reading c = Prompting →
  match split (strip line) with
  | [] => True
  | word :: _ =>
      lower word ∉ ["exit"; "quit"; "start"; "kill"; "create"]
  end →
  (feed strip lower split line uuid4 now ex c).2 = c.
Proof.
  intros Hmode Hword. unfold feed. rewrite Hmode. cbn [snd].
  destruct (split (strip line)) as [|word args]; [done|].
  unfold command. cbv zeta.
  repeat case_decide; try done.
  - destruct Hword. destruct H as [-> | ->]; [by left|by right; left].
  - destruct Hword. rewrite H1. by do 2 right; left.
  - by destruct (list_jobs (job_mgr c)).
  - destruct args; [done|]. by destruct (get_job _ _).
  - destruct Hword. rewrite H4. by do 3 right; left.
  - destruct Hword. rewrite H5. by do 4 right; left.
Qed.

End CliCommands.

(** ** Leaving the loop *)

Lemma request_cancel_twice job :
  request_cancel (request_cancel job) = request_cancel job.
Proof.
  unfold request_cancel. destruct job as [i n s l [t|] c]; simpl; [|done].
  unfold cancel, done. destruct t as [co mc w]. simpl.
  by destruct co.
Qed.

Lemma stop_jobs_objects entries : ∀ m,
  (∀ a job, objects m !! a = Some job → is_Some (task job)) →
  jobs (stop_jobs entries m).1 = jobs m
  ∧ (stop_jobs entries m).2 = false
  ∧ ∀ a, objects (stop_jobs entries m).1 !! a
         = (λ job, if decide (status job = "RUNNING" ∧ a ∈ entries.*2)
                   then request_cancel job else job) <$> objects m !! a.
Proof.
  induction entries as [|[k b] rest IH]; intros m Htask.
  - split_and!; [done..|]. intros a. cbn [stop_jobs fst].
    destruct (objects m !! a); [|done].
    simpl. rewrite decide_False; [done|]. by intros [_ ?%elem_of_nil].
  - cbn [stop_jobs snd]. rewrite fmap_cons. cbn [snd].
    destruct (objects m !! b) as [job|] eqn:Hb.
    + destruct (decide (status job = "RUNNING")) as [Hs|Hs].
      * destruct (Htask b job Hb) as [t Ht]. rewrite Ht.
        set (m1 := mkJobManager _ _).
        assert (objects m1 !! b = Some (request_cancel job)) as Hb1.
        { unfold m1, request_cancel. cbn [objects]. rewrite Ht.
          apply list_lookup_insert_eq. by eapply lookup_lt_Some. }
        destruct (IH m1) as (Hj & Hr & Ho).
        { intros a ja. unfold m1. cbn [objects].
          destruct (decide (a = b)) as [->|Hne].
          - rewrite list_lookup_insert_eq by (by eapply lookup_lt_Some).
            intros [= <-]. by eexists.
          - rewrite list_lookup_insert_ne by done. apply Htask. }
        split_and!; [done..|]. intros a. rewrite Ho.
        destruct (decide (a = b)) as [->|Hne].
        -- rewrite Hb1, Hb. simpl. f_equal.
           rewrite (decide_True (P:=_ ∧ b ∈ b :: _)) by (split; [done|by left]).
           case_decide; [apply request_cancel_twice|done].
        -- unfold m1. cbn [objects]. rewrite list_lookup_insert_ne by done.
           destruct (objects m !! a) as [ja|]; [|done]. simpl. f_equal.
           apply decide_ext. rewrite elem_of_cons. clear -Hne. intuition.
      * destruct (IH m Htask) as (Hj & Hr & Ho). split_and!; [done..|].
        intros a. rewrite Ho. destruct (objects m !! a) as [ja|] eqn:Ha;
          [|done]. simpl. f_equal.
        destruct (decide (a = b)) as [->|Hne].
        -- assert (ja = job) as -> by congruence.
           rewrite !decide_False; [done|by intros [? _]..].
        -- apply decide_ext. rewrite elem_of_cons. clear -Hne. intuition.
    + destruct (IH m Htask) as (Hj & Hr & Ho). split_and!; [done..|].
      intros a. rewrite Ho. destruct (objects m !! a) as [ja|] eqn:Ha;
        [|done]. simpl. f_equal.
      destruct (decide (a = b)) as [->|Hne]; [congruence|].
      apply decide_ext. rewrite elem_of_cons. clear -Hne. intuition.
Qed.

Lemma dict_get_Some_elem {V} k (v : V) d : dict_get k d = Some v → (k, v) ∈ d.
Proof.
  induction d as [|[k0 v0] d IH]; simpl; [done|].
  case_decide; [intros [= ->]; subst; by left|]. intros H'. right. by apply IH.
Qed.

Section CliExit.

Variable strip : string → string.
Variable lower : string → string.
Variable split : string → list string.

(** X16. In a run of [cli_loop], the command exit (or quit) leaves the
    loop after calling [task.cancel()] for every registered Job whose
    status is RUNNING, and for no other Job: it writes no status and no log
    line and leaves the dictionary and the workflows as they are.  For a
    RUNNING Job whose task waits in a step the cancellation is recorded for
    its next slice; a RUNNING Job whose task an uncaught exception has
    ended, and every Job whose status is not RUNNING, a PENDING one
    included, is left exactly as it is. *)
Theorem exit_cancels_running_jobs hs line uuid4 now ex word rest :
  let c := (session strip lower split hs cli_loop.2).2 in
  let c' := (feed strip lower split line uuid4 now ex c).2 in
  reading c = Prompting →
  split (strip line) = word :: rest →
  lower word = "exit" ∨ lower word = "quit" →
  reading c' = Exited
  ∧ workflow_mgr c' = workflow_mgr c
  ∧ jobs (job_mgr c') = jobs (job_mgr c)
  ∧ (∀ a, (λ j, (id j, name j, status j, logs j, created_at j))
            <$> objects (job_mgr c') !! a
          = (λ j, (id j, name j, status j, logs j, created_at j))
              <$> objects (job_mgr c) !! a)
  ∧ (∀ k j, get_job k (job_mgr c) = Some j → status j = "RUNNING" →
            ∃ t, task j = Some t
                 ∧ (((∃ i text rest o c0, coro t = InStep i text rest o c0)
                     ∧ get_job k (job_mgr c')
                       = Some (set_task
                                 (Some (mkTask (coro t) true (world t))) j))
                    ∨ ((∃ msg, coro t = Raised (BaseException msg))
                       ∧ get_job k (job_mgr c') = Some j)))
  ∧ (∀ a j, objects (job_mgr c) !! a = Some j → status j ≠ "RUNNING" →
            objects (job_mgr c') !! a = Some j).
Proof.
  intros c c' Hmode Hparts Hword.
  destruct (cli_ok_session strip lower split hs _ cli_ok_start)
    as [(evs & Hm & _) _].
  fold c in Hm.
  assert (∀ a job, objects (job_mgr c) !! a = Some job → is_Some (task job))
    as Htask by (rewrite Hm; intros a job; apply has_task).
  destruct (stop_jobs_objects (jobs (job_mgr c)) (job_mgr c) Htask)
    as (Hj & Hr & Ho).
  assert (c' = mkCli (workflow_mgr c)
                     (stop_jobs (jobs (job_mgr c)) (job_mgr c)).1 Exited)
    as ->.
  { unfold c', feed. rewrite Hmode, Hparts. unfold command. cbv zeta.
    rewrite decide_True by done. by rewrite Hr. }
  cbn [reading workflow_mgr job_mgr]. split_and!; [done..| | |].
  - intros a. rewrite Ho. destruct (objects (job_mgr c) !! a) as [j|]; [|done].
    simpl. by case_decide.
  - intros k j Hget Hs. unfold get_job in Hget |- *. rewrite Hj.
    destruct (dict_get k (jobs (job_mgr c))) as [a|] eqn:Hk; [|done].
    simpl in Hget |- *. rewrite Ho, Hget. simpl.
    rewrite decide_True.
    + assert (objects (run evs new_manager) !! a = Some j) as Hobj
        by (by rewrite <-Hm).
      destruct (running_task evs a j Hobj Hs) as (t & Ht & Hc).
      exists t. split; [done|]. unfold request_cancel, cancel, done.
      rewrite Ht. simpl.
      destruct Hc as [(i & text & rs & o & c0 & Hc)|[msg Hc]].
      * left. split; [by eauto 6|]. by rewrite Hc.
      * right. split; [by eauto|]. rewrite Hc. simpl.
        by rewrite set_task_task.
    + split; [done|]. apply list_elem_of_fmap. exists (k, a).
      split; [done|]. by apply dict_get_Some_elem.
  - intros a j Ha Hs. rewrite Ho, Ha. simpl.
    rewrite decide_False; [done|]. by intros [? _].
Qed.

End CliExit.

(** ** The table of jobs *)











(** ** Scenarios at the prompt *)

Lemma start_starts_listed_workflows_witness :
  (feed plain_strip plain_lower plain_split "start google_check"
        "1b9d6bcd-bbfd-4b2d-9b5d-ab8dfbbd4bed" "12:00:00" obliging
        cli_loop.2).1
  = [Print "✅ Job started! ID: 1b9d6bcd (Type 'jobs' to view status)";
     Ask (newline +:+ "(cli) > ")].
Proof.
  pose proof (start_starts_listed_workflows plain_strip plain_lower
                plain_split [] "start google_check"
                "1b9d6bcd-bbfd-4b2d-9b5d-ab8dfbbd4bed" "12:00:00" obliging
                "start" "google_check" [] eq_refl eq_refl eq_refl) as H.
  cbv zeta in H.
  destruct (decide ("google_check"
                    ∈ list_workflows
                        (workflow_mgr (session plain_strip plain_lower
                                         plain_split [] cli_loop.2).2)))
    as [_|Hout].
  - exact (f_equal fst (proj2 H)).
  - destruct Hout. right. left.
Defined.

Lemma create_dialogue_witness :
  (session plain_strip plain_lower plain_split
     ((λ l, Typed l "1b9d6bcd-bbfd-4b2d-9b5d-ab8dfbbd4bed" "12:00:00" obliging)
      <$> ["create"; "title_check"; "navigate to example.com"; "";
           "read the title"; "done"])
     cli_loop.2).2
  = mkCli (add_workflow "title_check"
             ["navigate to example.com"; "read the title"]
             new_workflow_manager)
          new_manager Prompting.
Proof.
  apply (create_dialogue plain_strip plain_lower plain_split cli_loop.2
           "create" "title_check"
           ["navigate to example.com"; ""; "read the title"] "done"
           "1b9d6bcd-bbfd-4b2d-9b5d-ab8dfbbd4bed" "12:00:00" obliging
           "create" []).
  - reflexivity.
  - reflexivity.
  - reflexivity.
  - repeat constructor; discriminate.
  - reflexivity.
Defined.

Lemma other_commands_change_nothing_witness :
  let c := (session plain_strip plain_lower plain_split
              [Typed "start google_check"
                     "1b9d6bcd-bbfd-4b2d-9b5d-ab8dfbbd4bed" "12:00:00"
                     obliging; Slice 0]
              cli_loop.2).2 in
  (feed plain_strip plain_lower plain_split "logs 1b9d6bcd"
        "6fa459ea-ee8a-3ca4-894e-db77e160355e" "12:00:01" obliging c).2 = c.
Proof.
  apply (other_commands_change_nothing plain_strip plain_lower plain_split).
  - reflexivity.
  - vm_compute. intros H.
    repeat (apply elem_of_cons in H as [H|H]; [discriminate|]).
    by apply elem_of_nil in H.
Defined.

Lemma exit_cancels_running_jobs_witness :
  let c := (session plain_strip plain_lower plain_split
              [Typed "start google_check"
                     "1b9d6bcd-bbfd-4b2d-9b5d-ab8dfbbd4bed" "12:00:00"
                     obliging; Slice 0]
              cli_loop.2).2 in
  reading (feed plain_strip plain_lower plain_split "exit"
                "6fa459ea-ee8a-3ca4-894e-db77e160355e" "12:00:01" obliging
                c).2
  = Exited.
Proof.
  refine (proj1 (exit_cancels_running_jobs plain_strip plain_lower plain_split
    [Typed "start google_check" "1b9d6bcd-bbfd-4b2d-9b5d-ab8dfbbd4bed"
           "12:00:00" obliging; Slice 0]
    "exit" "6fa459ea-ee8a-3ca4-894e-db77e160355e" "12:00:01" obliging
    "exit" [] _ _ _)).
  - reflexivity.
  - reflexivity.
  - by left.
Defined.
